(** * ChefApp: the recipe-generation request pipeline

    A shallow embedding of the two variants of the pipeline found in the
    repository,

      - [src/my-recipe-app/src/chefApp.jsx]   (module [ChefApp]),
      - [src/unnamed/part_000]                (module [Part000]),

    which differ in [fetchWithRetry] (retry budget, diagnostic message,
    jitter, final error) and share the text of [generateRecipe].

    JavaScript values are modelled by [jsval], thrown values by [thrown], a
    computation that may throw by [result].  The built-ins of the host whose
    exact output is engine specific ([JSON.parse], the text of engine-raised
    [TypeError]s) are gathered in a [Platform]; the network and
    [Math.random] are gathered in a [World].  Every effect of a run
    ([fetch], [setTimeout], [console.error], the React state setters) is
    recorded, in program order, in a list of [event]s. *)

From Stdlib Require Import List String Ascii Bool Arith Lia.
From Stdlib Require Import ZArith QArith DecimalString.
Import ListNotations.

Open Scope string_scope.
Open Scope nat_scope.

(** ** Thrown values and the exception monad *)

(** A thrown value.  Everything the program or the host throws here is an
    [Error] (also [TypeError], [SyntaxError]), of which the program reads
    only [.message]; in addition [lastError] starts as [undefined], which
    [part_000] throws when its loop runs no iteration. *)
Inductive thrown : Type :=
| JsError (message : string)
| JsUndefined.

Inductive result (A : Type) : Type :=
| Ok (a : A)
| Throw (e : thrown).
Arguments Ok {A} a.
Arguments Throw {A} e.

Definition bind {A B : Type} (r : result A) (k : A -> result B) : result B :=
  match r with
  | Ok a => k a
  | Throw e => Throw e
  end.

Notation "x <- e ;; k" := (bind e (fun x => k))
  (at level 61, e at next level, right associativity).

(** What an operation of the host does ([fetch], the body readers of a
    response, [JSON.parse]): it returns, or it raises (rejects with) an
    [Error] object, of which [message] is the text. *)
Inductive outcome (A : Type) : Type :=
| Returns (a : A)
| Raises (message : string).
Arguments Returns {A} a.
Arguments Raises {A} message.

(** [await] of a host promise, or the call of a host function, inside the
    program. *)
Definition run {A : Type} (o : outcome A) : result A :=
  match o with
  | Returns a => Ok a
  | Raises m => Throw (JsError m)
  end.

(** ** JavaScript values *)

(** The values that [JSON.parse] and property reads can yield.  A Number is
    identified by its ECMAScript [ToString] rendering [repr]: the program
    only ever converts a Number to a string or to a boolean, the rendering
    is one-to-one on Numbers except that [+0] and [-0] both render as [0],
    and both zeros are falsy.  An object is the list of its own properties;
    a key occurs at most once in an object built by [JSON.parse]. *)
#[local] Set Warnings "-register-all".
Inductive jsval : Type :=
| JUndefined
| JNull
| JBool (b : bool)
| JNum (repr : string)
| JStr (s : string)
| JArr (elems : list jsval)
| JObj (props : list (string * jsval)).

(** [ToBoolean]. *)
Definition truthy (v : jsval) : bool :=
  match v with
  | JUndefined | JNull => false
  | JBool b => b
  | JNum r => negb (String.eqb r "0" || String.eqb r "NaN")
  | JStr s => negb (String.eqb s "")
  | JArr _ | JObj _ => true
  end.

Definition nullish (v : jsval) : bool :=
  match v with
  | JUndefined | JNull => true
  | _ => false
  end.

(** [Array.isArray]. *)
Definition isArray (v : jsval) : bool :=
  match v with
  | JArr _ => true
  | _ => false
  end.

Fixpoint lookup (k : string) (props : list (string * jsval)) : option jsval :=
  match props with
  | [] => None
  | (k', v) :: rest => if String.eqb k k' then Some v else lookup k rest
  end.

(** [v.p] for a [v] that is neither [undefined] nor [null], and a name [p]
    that no built-in prototype defines and that is no own property of
    strings and arrays: this holds of every name the program reads
    ([candidates], [content], [parts], [text], [error], [message],
    [recipeName], [ingredients]).  Primitives and arrays then have no such
    property. *)
Definition read_prop (v : jsval) (p : string) : jsval :=
  match v with
  | JObj props =>
      match lookup p props with
      | Some x => x
      | None => JUndefined
      end
  | _ => JUndefined
  end.

(** [v[0]] for a [v] that is neither [undefined] nor [null]: the first
    element of an array, the first code unit of a string (as a string), the
    property named [0] of an object. *)
Definition read_index0 (v : jsval) : jsval :=
  match v with
  | JArr (x :: _) => x
  | JStr (String c _) => JStr (String c EmptyString)
  | JObj props =>
      match lookup "0" props with
      | Some x => x
      | None => JUndefined
      end
  | _ => JUndefined
  end.

(** Optional chaining: [v?.p] and [v?.[0]]. *)
Definition opt_prop (v : jsval) (p : string) : jsval :=
  if nullish v then JUndefined else read_prop v p.

Definition opt_index0 (v : jsval) : jsval :=
  if nullish v then JUndefined else read_index0 v.

(** Decimal rendering of a non-negative integer ([response.status],
    [maxRetries], [i + 1] inside template literals). *)
Definition show_nat (n : nat) : string :=
  NilEmpty.string_of_uint (Nat.to_uint n).

(** ** The host platform *)

Record Platform : Type := {
  (** [JSON.parse] on a string; it raises a [SyntaxError]. *)
  JSON_parse : string -> outcome jsval;
  (** The message of the [TypeError] raised by reading property [p] of
      [undefined] or [null]. *)
  TypeError_read : jsval -> string -> string;
  (** The message of the [TypeError] raised when an object cannot be
      converted to a primitive. *)
  TypeError_toPrimitive : string
}.

Section Conversions.

Variable P : Platform.

(** Plain (throwing) property reads [v.p] and [v[0]]. *)
Definition get_prop (v : jsval) (p : string) : result jsval :=
  if nullish v then Throw (JsError (TypeError_read P v p))
  else Ok (read_prop v p).

Definition get_index0 (v : jsval) : result jsval :=
  if nullish v then Throw (JsError (TypeError_read P v "0"))
  else Ok (read_index0 v).

(** [ToString].  An array is joined with commas, [undefined] and [null]
    elements giving the empty string.  A plain object renders as
    [[object Object]] through [Object.prototype.toString], unless it has
    an own property [toString]: that one shadows the inherited method
    and, coming from JSON, is not callable, after which [valueOf] yields
    no primitive either and a [TypeError] is raised. *)
Fixpoint ToString (v : jsval) : result string :=
  match v with
  | JUndefined => Ok "undefined"
  | JNull => Ok "null"
  | JBool true => Ok "true"
  | JBool false => Ok "false"
  | JNum r => Ok r
  | JStr s => Ok s
  | JArr elems =>
      (fix join (l : list jsval) : result string :=
         match l with
         | [] => Ok ""
         | x :: rest =>
             s <- (if nullish x then Ok "" else ToString x) ;;
             match rest with
             | [] => Ok s
             | _ :: _ => t <- join rest ;; Ok (s ++ "," ++ t)
             end
         end) elems
  | JObj props =>
      match lookup "toString" props with
      | Some _ => Throw (JsError (TypeError_toPrimitive P))
      | None => Ok "[object Object]"
      end
  end.

End Conversions.

(** ** The network, timers and state setters *)

(** A [Response] object, given by what its members yield when the program
    reads them: [status], and the outcome of the body readers [text()] and
    [json()] (each may reject). *)
Record Response : Type := {
  status : nat;
  text : outcome string;
  json : outcome jsval
}.

(** [response.ok]: the status is in the range 200-299. *)
Definition ok (r : Response) : bool :=
  (200 <=? status r) && (status r <=? 299).

(** The environment of one call of [fetchWithRetry]: [net i] is what the
    [fetch] of the iteration with loop index [i] does (it resolves with a
    response, whatever its status, or rejects: a network failure),
    [random i] what [Math.random()] returns in that iteration. *)
Record World : Type := {
  net : nat -> outcome Response;
  random : nat -> Q
}.

(** An attempt succeeds when [fetch] resolves with an [ok] response; every
    other outcome is a failure of the attempt. *)
Definition succeeds (o : outcome Response) : bool :=
  match o with
  | Returns r => ok r
  | Raises _ => false
  end.

(** The contract of [Math.random]: a number in [0, 1). *)
Definition random_in_range (w : World) : Prop :=
  forall i, (0 <= random w i)%Q /\ (random w i < 1)%Q.

(** The request body built by [generateRecipe] (the [payload] object; the
    fixed [recipeSchema] is represented by its [required] list). *)
Record Payload : Type := {
  contents_text : string;
  responseMimeType : string;
  responseSchema_required : list string;
  temperature : Q;
  systemInstruction_text : string
}.

Record Options : Type := {
  method : string;
  header_Content_Type : string;
  body : Payload
}.

(** The effects of a run, in program order.  [EvSleep ms] is the [await] of
    a promise that [setTimeout] resolves, [ms] being the delay handed to
    [setTimeout], in milliseconds. *)
Inductive event : Type :=
| EvFetch (url : string) (options : Options)
| EvSleep (ms : Q)
| EvLog (label : string) (e : thrown)
| EvSetError (v : option string)
| EvSetIsLoading (b : bool)
| EvSetRecipe (v : option jsval).

Definition is_fetch (e : event) : bool :=
  match e with
  | EvFetch _ _ => true
  | _ => false
  end.

(** The number of network calls in a trace. *)
Definition calls (tr : list event) : nat :=
  List.length (filter is_fetch tr).

(** The waits of a trace, in order. *)
Fixpoint sleeps (tr : list event) : list Q :=
  match tr with
  | [] => []
  | EvSleep d :: rest => d :: sleeps rest
  | _ :: rest => sleeps rest
  end.

(** [Math.pow(2, i) * 1000].  Delays are modelled in the rationals: this
    product is exact in the doubles for every [i] a retry budget reaches,
    and the rounding of the sum with the jitter is monotone, so that the
    bounds below hold of the doubles as well. *)
Definition backoff_base (i : nat) : Q :=
  inject_Z (2 ^ Z.of_nat i) * 1000.

(** [e.message] for a caught value [e]; reading it off [undefined] raises. *)
Definition message_of (P : Platform) (e : thrown) : result string :=
  match e with
  | JsError m => Ok m
  | JsUndefined => Throw (JsError (TypeError_read P JUndefined "message"))
  end.

(** ** [generateRecipe], shared by the two files *)

(** The form's [answers] (all five are strings: text inputs and radio
    values) and the three React state slots, [null] being [None]. *)
Record Answers : Type := {
  ingredients : string;
  diet : string;
  fatType : string;
  allergies : string;
  specialRequest : string
}.

Record AppState : Type := {
  recipe : option jsval;
  isLoading : bool;
  error : option string
}.

Definition setError (v : option string) (s : AppState) : AppState :=
  {| recipe := recipe s; isLoading := isLoading s; error := v |}.

Definition setIsLoading (b : bool) (s : AppState) : AppState :=
  {| recipe := recipe s; isLoading := b; error := error s |}.

Definition setRecipe (v : option jsval) (s : AppState) : AppState :=
  {| recipe := v; isLoading := isLoading s; error := error s |}.

(** The state of [useState(null)], [useState(false)], [useState(null)]. *)
Definition initial_state : AppState :=
  {| recipe := None; isLoading := false; error := None |}.

(** [s || d] on strings: the empty string is the only falsy one. *)
Definition or_default (s d : string) : string :=
  if String.eqb s "" then d else s.

Definition NL : string := String (ascii_of_nat 10) EmptyString.

Definition userQuery (answers : Answers) : string :=
  "Generate a single, unique food recipe based on the following strict criteria:" ++ NL
  ++ "- Main Ingredients: "
  ++ or_default (ingredients answers) "I have no specific ingredients, be creative." ++ NL
  ++ "- Dietary Type: "
  ++ (if String.eqb (diet answers) "veg" then "Strictly Vegetarian" else "Non-Vegetarian") ++ NL
  ++ "- Cooking Fat: Use " ++ fatType answers ++ " exclusively." ++ NL
  ++ "- Allergies to Avoid: "
  ++ or_default (allergies answers) "None, ensure safety." ++ NL
  ++ "- Special Request/Style: "
  ++ or_default (specialRequest answers) "Make it simple and delicious." ++ NL
  ++ "The entire response MUST be a single JSON object conforming to the provided schema. DO NOT include any text outside the JSON structure.".

Definition payload (answers : Answers) : Payload :=
  {| contents_text := userQuery answers;
     responseMimeType := "application/json";
     responseSchema_required :=
       ["recipeName"; "ingredients"; "instructions"; "prepTimeMinutes"];
     temperature := 7 # 10;
     systemInstruction_text :=
       "You are an expert, world-class chef AI. Your sole purpose is to create novel, detailed, and delicious recipes that strictly adhere to all user criteria and restrictions. Output only the requested JSON object." |}.

Definition request_options (answers : Answers) : Options :=
  {| method := "POST";
     header_Content_Type := "application/json";
     body := payload answers |}.

(** The submit button is rendered with [disabled={isLoading}]. *)
Definition submit_disabled (s : AppState) : bool := isLoading s.

Section Controller.

Variable P : Platform.
(** [import.meta.env.VITE_GEMINI_API_KEY], as interpolated in the URL. *)
Variable apiKey : string.
Variable API_URL : string.
(** [fetchWithRetry] of the file at hand, called with two arguments
    (so with the default [maxRetries]). *)
Variable fetchWithRetry :
  World -> string -> Options -> result Response * list event.

(** [result.candidates?.[0]?.content?.parts?.[0]?.text]: the first read
    is a plain one, the others are optional. *)
Definition text_path (res : jsval) : result jsval :=
  c <- get_prop P res "candidates" ;;
  Ok (opt_prop
        (opt_index0 (opt_prop (opt_prop (opt_index0 c) "content") "parts"))
        "text").

(** [result.candidates[0].content.parts[0].text], with plain reads. *)
Definition text_of (res : jsval) : result jsval :=
  c <- get_prop P res "candidates" ;;
  c0 <- get_index0 P c ;;
  ct <- get_prop P c0 "content" ;;
  ps <- get_prop P ct "parts" ;;
  p0 <- get_index0 P ps ;;
  get_prop P p0 "text".

(** The check of the parsed text: both disjuncts of the [if]. *)
Definition check_core_fields (parsedRecipe : jsval) : result jsval :=
  name <- get_prop P parsedRecipe "recipeName" ;;
  if negb (truthy name) then
    Throw (JsError "Generated JSON is missing core recipe fields.")
  else
    ing <- get_prop P parsedRecipe "ingredients" ;;
    if negb (isArray ing) then
      Throw (JsError "Generated JSON is missing core recipe fields.")
    else Ok parsedRecipe.

(** The statements of the [try] that follow [await fetchWithRetry(...)];
    the value is the argument of [setRecipe]. *)
Definition readRecipe (response : Response) : result jsval :=
  res <- run (json response) ;;
  t <- text_path res ;;
  if negb (truthy t) then
    e <- get_prop P res "error" ;;
    let m := opt_prop e "message" in
    let errorMessage :=
      if truthy m then m
      else JStr "Received an empty or malformed response from the AI." in
    msg <- ToString P errorMessage ;;
    Throw (JsError msg)
  else
    jsonString <- text_of res ;;
    str <- ToString P jsonString ;;
    parsedRecipe <- run (JSON_parse P str) ;;
    check_core_fields parsedRecipe.

(** [generateRecipe] up to the call of [fetchWithRetry]: the three
    setters. *)
Definition begin (s : AppState) : AppState * list event :=
  (setRecipe None (setIsLoading true (setError None s)),
   [EvSetError None; EvSetIsLoading true; EvSetRecipe None]).

(** The [try] block: the transport, then [readRecipe]. *)
Definition try_block (answers : Answers) (w : World)
  : result jsval * list event :=
  let (r, tr) :=
    fetchWithRetry w (API_URL ++ "?key=" ++ apiKey) (request_options answers) in
  (response <- r ;; readRecipe response, tr).

(** From the outcome of the [try] block on: [setRecipe], or the [catch],
    then the [finally].  The third component tells whether the promise
    of [generateRecipe] is fulfilled or rejected (the [catch] itself
    throws when the caught value has no [message] to read). *)
Definition settle (r : result jsval) (s : AppState)
  : AppState * list event * result unit :=
  match r with
  | Ok parsedRecipe =>
      (setIsLoading false (setRecipe (Some parsedRecipe) s),
       [EvSetRecipe (Some parsedRecipe); EvSetIsLoading false],
       Ok tt)
  | Throw err =>
      match message_of P err with
      | Ok m =>
          let shown :=
            "Failed to generate recipe: " ++ m
            ++ ". Please refine your input and try again." in
          (setIsLoading false (setError (Some shown) s),
           [EvLog "Recipe generation failed:" err;
            EvSetError (Some shown); EvSetIsLoading false],
           Ok tt)
      | Throw e =>
          (setIsLoading false s,
           [EvLog "Recipe generation failed:" err; EvSetIsLoading false],
           Throw e)
      end
  end.

(** One run of [generateRecipe], from its call to its completion. *)
Definition generateRecipe (answers : Answers) (w : World) (s : AppState)
  : AppState * list event * result unit :=
  let (s1, tr1) := begin s in
  let (r, tr2) := try_block answers w in
  let '(s2, tr3, c) := settle r s1 in
  (s2, (tr1 ++ tr2 ++ tr3)%list, c).

(** *** The component between events

    A run of [generateRecipe] is suspended at its [await]s, and other
    event handlers may run meanwhile.  [Sys] pairs the state slots with
    the number of runs that have begun and not yet completed; the view
    is rendered from the slots between events.  [call] is any call of
    [generateRecipe] (its setters run before the first [await]),
    [complete] the completion of a run in flight (what follows the last
    [await]).  The page calls [generateRecipe] from the submit handler of
    the form only, and the browser submits the form only while its submit
    button is enabled: that is [step_click]. *)
Record Sys : Type := {
  slots : AppState;
  in_flight : nat
}.

Definition initial_sys : Sys :=
  {| slots := initial_state; in_flight := 0 |}.

Inductive call : Sys -> Sys -> Prop :=
| call_generateRecipe (s : AppState) (n : nat) :
    call {| slots := s; in_flight := n |}
         {| slots := fst (begin s); in_flight := S n |}.

Inductive complete : Sys -> Sys -> Prop :=
| complete_run (s : AppState) (n : nat) (answers : Answers) (w : World) :
    complete {| slots := s; in_flight := S n |}
             {| slots := fst (fst (settle (fst (try_block answers w)) s));
                in_flight := n |}.

(** The steps of the component as the page drives it. *)
Inductive ui_step : Sys -> Sys -> Prop :=
| step_click (x y : Sys) :
    submit_disabled (slots x) = false -> call x y -> ui_step x y
| step_complete (x y : Sys) :
    complete x y -> ui_step x y.

Inductive ui_reachable : Sys -> Prop :=
| reach_initial : ui_reachable initial_sys
| reach_step (x y : Sys) : ui_reachable x -> ui_step x y -> ui_reachable y.

End Controller.

(** ** [fetchWithRetry] of [src/my-recipe-app/src/chefApp.jsx] *)

Module ChefApp.

Definition API_URL : string :=
  "https://generativelanguage.googleapis.com/v1beta/models/gemini-2.5-flash-preview-09-2025:generateContent".

(** The default of the parameter [maxRetries]. *)
Definition default_maxRetries : nat := 5.

(** The body of the [try] of one iteration: one [fetch], then the check
    of [response.ok]. *)
Definition attempt (o : outcome Response) : result Response :=
  response <- run o ;;
  if negb (ok response) then
    if status response =? 400 then
      Throw (JsError "Bad Request: Invalid input to the API.")
    else
      Throw (JsError ("HTTP error! status: " ++ show_nat (status response)))
  else Ok response.

Section Transport.

Variable P : Platform.
Variable w : World.
Variables (url : string) (options : Options) (maxRetries : nat).

(** The [for] loop, [k] iterations before [i] reaches [maxRetries]
    ([i + k = maxRetries]), followed by the final [throw].  The budget
    [maxRetries] is a natural number (the program passes none and so uses
    the default); [maxRetries - 1] is evaluated inside an iteration only,
    where [maxRetries] is positive. *)
Fixpoint retry_loop (k i : nat) (lastError : thrown)
  : result Response * list event :=
  match k with
  | 0 =>
      (m <- message_of P lastError ;;
       Throw (JsError ("API call failed after " ++ show_nat maxRetries
                       ++ " attempts: " ++ m)),
       [])
  | S k' =>
      match attempt (net w i) with
      | Ok response => (Ok response, [EvFetch url options])
      | Throw error =>
          let delay := (backoff_base i + random w i * 1000)%Q in
          let (r, tr) := retry_loop k' (S i) error in
          (r, EvFetch url options
                :: (if i <? maxRetries - 1 then [EvSleep delay] else [])
                ++ tr)
      end
  end.

Definition fetchWithRetry : result Response * list event :=
  retry_loop maxRetries 0 JsUndefined.

End Transport.

(** [generateRecipe] of this file. *)
Definition transport (P : Platform) (w : World) (url : string)
  (options : Options) : result Response * list event :=
  fetchWithRetry P w url options default_maxRetries.

Definition generateRecipe (P : Platform) (apiKey : string)
  : Answers -> World -> AppState -> AppState * list event * result unit :=
  generateRecipe P apiKey API_URL (transport P).

End ChefApp.

(** ** [fetchWithRetry] of [src/unnamed/part_000] *)

Module Part000.

(** The constant [API_URL] of this file ends in a query string with a
    literal key; the key is the parameter [embedded_key] here. *)
Definition API_URL (embedded_key : string) : string :=
  "https://generativelanguage.googleapis.com/v1beta/models/gemini-2.0-flash:generateContent?key="
  ++ embedded_key.

(** The default of the parameter [maxRetries]. *)
Definition default_maxRetries : nat := 3.

Section Transport.

Variable P : Platform.

Definition generic_message (response : Response) : string :=
  "HTTP error! status: " ++ show_nat (status response).

Definition api_error (detail : string) (response : Response) : string :=
  "API Error: " ++ detail ++ " (" ++ show_nat (status response) ++ ")".

(** The inner [try]: parse the body, look for the envelope's message. *)
Definition envelope_message (errorText : string) (response : Response)
  : result string :=
  errorJson <- run (JSON_parse P errorText) ;;
  e <- get_prop P errorJson "error" ;;
  if truthy e && truthy (read_prop e "message") then
    m <- ToString P (read_prop e "message") ;;
    Ok (api_error m response)
  else Ok (generic_message response).

(** The value of [errorMessage] when it is thrown. *)
Definition errorMessage (errorText : string) (response : Response) : string :=
  match envelope_message errorText response with
  | Ok m => m
  | Throw _ =>
      if negb (String.eqb errorText "") then api_error errorText response
      else generic_message response
  end.

Definition attempt (o : outcome Response) : result Response :=
  response <- run o ;;
  if negb (ok response) then
    errorText <- run (text response) ;;
    Throw (JsError (errorMessage errorText response))
  else Ok response.

Variable w : World.
Variables (url : string) (options : Options) (maxRetries : nat).

(** The [for] loop and the final [throw], as in [ChefApp.retry_loop]. *)
Fixpoint retry_loop (k i : nat) (lastError : thrown)
  : result Response * list event :=
  match k with
  | 0 => (Throw lastError, [])
  | S k' =>
      match attempt (net w i) with
      | Ok response => (Ok response, [EvFetch url options])
      | Throw error =>
          let (r, tr) := retry_loop k' (S i) error in
          (r, EvFetch url options
                :: EvLog ("Attempt " ++ show_nat (i + 1) ++ " failed:") error
                :: (if i <? maxRetries - 1
                    then let delay := backoff_base i in [EvSleep delay]
                    else [])
                ++ tr)
      end
  end.

Definition fetchWithRetry : result Response * list event :=
  retry_loop maxRetries 0 JsUndefined.

End Transport.

(** [generateRecipe] of this file. *)
Definition transport (P : Platform) (w : World) (url : string)
  (options : Options) : result Response * list event :=
  fetchWithRetry P w url options default_maxRetries.

Definition generateRecipe (P : Platform) (embedded_key apiKey : string)
  : Answers -> World -> AppState -> AppState * list event * result unit :=
  generateRecipe P apiKey (API_URL embedded_key) (transport P).

End Part000.

(** ** A concrete platform for the examples

    [Engine] is a platform on which the general statements below are
    instantiated at concrete inputs.  Its [JSON.parse] is a recursive
    descent parser for the fragment of JSON without [\u] escapes and whose
    numbers are integers of at most fifteen digits (such an integer is a
    double, and its literal, less a sign on zero, is its rendering); a text
    outside of the fragment is refused like a malformed one, and the text
    of its [SyntaxError] is a fixed one.  The [TypeError] texts are those
    of V8.  No general statement below depends on [Engine]. *)
Module Engine.

Definition is_ws (c : ascii) : bool :=
  match nat_of_ascii c with
  | 32 | 9 | 10 | 13 => true
  | _ => false
  end.

Fixpoint skip_ws (s : string) : string :=
  match s with
  | String c r => if is_ws c then skip_ws r else s
  | EmptyString => EmptyString
  end.

Definition is_digit (c : ascii) : bool :=
  (48 <=? nat_of_ascii c) && (nat_of_ascii c <=? 57).

(** The character denoted by the escape [\e]. *)
Definition unescape (e : ascii) : option ascii :=
  match nat_of_ascii e with
  | 34 => Some (ascii_of_nat 34)
  | 92 => Some (ascii_of_nat 92)
  | 47 => Some (ascii_of_nat 47)
  | 98 => Some (ascii_of_nat 8)
  | 102 => Some (ascii_of_nat 12)
  | 110 => Some (ascii_of_nat 10)
  | 114 => Some (ascii_of_nat 13)
  | 116 => Some (ascii_of_nat 9)
  | _ => None
  end.

(** The characters of a string literal, after its opening quote. *)
Fixpoint parse_chars (s : string) : option (string * string) :=
  match s with
  | EmptyString => None
  | String c r =>
      if nat_of_ascii c =? 34 then Some (EmptyString, r)
      else if nat_of_ascii c =? 92 then
        match r with
        | String e r' =>
            match unescape e, parse_chars r' with
            | Some ch, Some (t, rest) => Some (String ch t, rest)
            | _, _ => None
            end
        | EmptyString => None
        end
      else if nat_of_ascii c <? 32 then None
      else
        match parse_chars r with
        | Some (t, rest) => Some (String c t, rest)
        | None => None
        end
  end.

Fixpoint take_digits (s : string) : string * string :=
  match s with
  | String c r =>
      if is_digit c then let (d, rest) := take_digits r in (String c d, rest)
      else (EmptyString, s)
  | EmptyString => (EmptyString, EmptyString)
  end.

Definition starts_fraction_or_exponent (s : string) : bool :=
  match s with
  | String c _ =>
      match nat_of_ascii c with
      | 46 | 101 | 69 => true
      | _ => false
      end
  | EmptyString => false
  end.

(** An integer literal: no leading zero, at most fifteen digits. *)
Definition parse_number (s : string) : option (jsval * string) :=
  let (negative, s') :=
    match s with
    | String c r => if nat_of_ascii c =? 45 then (true, r) else (false, s)
    | EmptyString => (false, s)
    end in
  let (digits, rest) := take_digits s' in
  if starts_fraction_or_exponent rest then None
  else if String.eqb digits "0" then Some (JNum "0", rest)
  else
    match digits with
    | EmptyString => None
    | String d _ =>
        if (nat_of_ascii d =? 48) || (15 <? String.length digits) then None
        else Some (JNum (if negative then "-" ++ digits else digits), rest)
    end.

Definition expect (word : string) (v : jsval) (s : string)
  : option (jsval * string) :=
  if String.prefix word s
  then Some (v, substring (String.length word)
                          (String.length s - String.length word) s)
  else None.

(** A later occurrence of a key replaces an earlier one. *)
Fixpoint set_prop (k : string) (v : jsval) (props : list (string * jsval))
  : list (string * jsval) :=
  match props with
  | [] => [(k, v)]
  | (k', v') :: rest =>
      if String.eqb k k' then (k, v) :: rest
      else (k', v') :: set_prop k v rest
  end.

Fixpoint parse_value (fuel : nat) (s : string) : option (jsval * string) :=
  match fuel with
  | 0 => None
  | S f =>
      let elements :=
        fix elements (n : nat) (s : string) : option (list jsval * string) :=
          match n with
          | 0 => None
          | S n' =>
              match parse_value f s with
              | Some (v, r) =>
                  match skip_ws r with
                  | String c r' =>
                      if nat_of_ascii c =? 44 then
                        match elements n' r' with
                        | Some (vs, r'') => Some (v :: vs, r'')
                        | None => None
                        end
                      else if nat_of_ascii c =? 93 then Some ([v], r')
                      else None
                  | EmptyString => None
                  end
              | None => None
              end
          end in
      let members :=
        fix members (n : nat) (acc : list (string * jsval)) (s : string)
          : option (list (string * jsval) * string) :=
          match n with
          | 0 => None
          | S n' =>
              match skip_ws s with
              | String q r =>
                  if nat_of_ascii q =? 34 then
                    match parse_chars r with
                    | Some (k, r1) =>
                        match skip_ws r1 with
                        | String c r2 =>
                            if nat_of_ascii c =? 58 then
                              match parse_value f r2 with
                              | Some (v, r3) =>
                                  match skip_ws r3 with
                                  | String d r4 =>
                                      if nat_of_ascii d =? 44
                                      then members n' (set_prop k v acc) r4
                                      else if nat_of_ascii d =? 125
                                      then Some (set_prop k v acc, r4)
                                      else None
                                  | EmptyString => None
                                  end
                              | None => None
                              end
                            else None
                        | EmptyString => None
                        end
                    | None => None
                    end
                  else None
              | EmptyString => None
              end
          end in
      match skip_ws s with
      | EmptyString => None
      | String c r =>
          match nat_of_ascii c with
          | 110 => expect "null" JNull (String c r)
          | 116 => expect "true" (JBool true) (String c r)
          | 102 => expect "false" (JBool false) (String c r)
          | 34 =>
              match parse_chars r with
              | Some (t, rest) => Some (JStr t, rest)
              | None => None
              end
          | 91 =>
              match skip_ws r with
              | String c' r' =>
                  if nat_of_ascii c' =? 93 then Some (JArr [], r')
                  else
                    match elements f r with
                    | Some (vs, rest) => Some (JArr vs, rest)
                    | None => None
                    end
              | EmptyString => None
              end
          | 123 =>
              match skip_ws r with
              | String c' r' =>
                  if nat_of_ascii c' =? 125 then Some (JObj [], r')
                  else
                    match members f [] r with
                    | Some (ps, rest) => Some (JObj ps, rest)
                    | None => None
                    end
              | EmptyString => None
              end
          | _ => parse_number (String c r)
          end
      end
  end.

Definition parse (s : string) : outcome jsval :=
  match parse_value (S (String.length s)) s with
  | Some (v, rest) =>
      match skip_ws rest with
      | EmptyString => Returns v
      | String _ _ => Raises "Unexpected non-whitespace character after JSON"
      end
  | None => Raises "Unexpected token in JSON"
  end.

Definition read_message (v : jsval) (p : string) : string :=
  "Cannot read properties of "
  ++ (match v with JNull => "null" | _ => "undefined" end)
  ++ " (reading '" ++ p ++ "')".

Definition platform : Platform :=
  {| JSON_parse := parse;
     TypeError_read := read_message;
     TypeError_toPrimitive := "Cannot convert object to primitive value" |}.

End Engine.

(** ** The statements of the specification, as written

    Each definition below follows the words of the specification; it is
    compared with the program in the facts that follow. *)

(** "Given the first attempt returns HTTP 400, ResilientTransport makes
    exactly one call and raises a terminal error (no retry, no wait)",
    of the outcome and trace of a run of the transport. *)
Definition terminal_after_one_call (r : result Response * list event) : Prop :=
  calls (snd r) = 1 /\ sleeps (snd r) = [] /\ exists e, fst r = Throw e.

Definition is_string (v : jsval) : bool :=
  match v with
  | JStr _ => true
  | _ => false
  end.

(** A non-empty ordered sequence of strings. *)
Definition nonempty_strings (v : jsval) : bool :=
  match v with
  | JArr (x :: rest) => forallb is_string (x :: rest)
  | _ => false
  end.

Fixpoint all_digits (s : string) : bool :=
  match s with
  | EmptyString => true
  | String c r => Engine.is_digit c && all_digits r
  end.

Fixpoint has_positive_exponent (s : string) : bool :=
  match s with
  | EmptyString => false
  | String c r => String.prefix "e+" s || has_positive_exponent r
  end.

(** A positive integer, read off the rendering of the Number: plain digits
    other than [0], or, from 1e21 on, the exponent form of a positive
    Number. *)
Definition positive_integer (v : jsval) : bool :=
  match v with
  | JNum (String c r) =>
      Engine.is_digit c
      && ((all_digits r && negb (String.eqb (String c r) "0"))
          || has_positive_exponent r)
  | _ => false
  end.

Definition has_prop (v : jsval) (p : string) : bool :=
  match v with
  | JObj props =>
      match lookup p props with
      | Some _ => true
      | None => false
      end
  | _ => false
  end.

(** "Recipe is accepted only if all four required fields are present and
    ingredients/instructions are non-empty ordered sequences [of string];
    prepTimeMinutes > 0 [a positive integer]". *)
Definition spec_recipe (v : jsval) : bool :=
  has_prop v "recipeName" && has_prop v "ingredients"
  && has_prop v "instructions" && has_prop v "prepTimeMinutes"
  && nonempty_strings (read_prop v "ingredients")
  && nonempty_strings (read_prop v "instructions")
  && positive_integer (read_prop v "prepTimeMinutes").

(** "Diagnostic messages are extracted, in priority order: structured JSON
    error envelope's message field, raw response body text, generic HTTP
    status N message", in the wording of the messages of [part_000]. *)
Definition diagnostic_by_priority (P : Platform) (errorText : string)
  (response : Response) : string :=
  let envelope :=
    match JSON_parse P errorText with
    | Returns errorJson => opt_prop (opt_prop errorJson "error") "message"
    | Raises _ => JUndefined
    end in
  match envelope with
  | JStr m => Part000.api_error m response
  | _ =>
      if negb (String.eqb errorText "") then Part000.api_error errorText response
      else Part000.generic_message response
  end.

(** "Submitting while in Loading state does not start a second concurrent
    pipeline execution [...] enforced inside the controller itself", of a
    [controller]: called in a Loading state it makes no network call. *)
Definition loading_guard
  (controller :
     Answers -> World -> AppState -> AppState * list event * result unit)
  : Prop :=
  forall (answers : Answers) (w : World) (s : AppState),
    isLoading s = true ->
    calls (snd (fst (controller answers w s))) = 0.

(** The RequestState of the specification, "tagged variant {Idle | Loading
    | Success(Recipe) | Failure(ErrorDetail)}", and the variant that the
    three slots of the component display, if any. *)
Inductive RequestState : Type :=
| Idle
| Loading
| Success (r : jsval)
| Failure (detail : string).

Definition view (s : AppState) : option RequestState :=
  match recipe s, error s, isLoading s with
  | None, None, false => Some Idle
  | None, None, true => Some Loading
  | Some r, None, false => Some (Success r)
  | None, Some m, false => Some (Failure m)
  | _, _, _ => None
  end.

(** The invariant of the component as the page drives it: no run in flight
    and a state other than Loading, or one run in flight and Loading. *)
Definition single_flight (x : Sys) : Prop :=
  (in_flight x = 0 /\ isLoading (slots x) = false
   /\ exists v, view (slots x) = Some v)
  \/ (in_flight x = 1
      /\ slots x = {| recipe := None; isLoading := true; error := None |}).

(** The nested text path [candidates[0].content.parts[0].text] of an
    envelope, [undefined] when a link of it is missing. *)
Definition nested_text (res : jsval) : jsval :=
  opt_prop
    (opt_index0
       (opt_prop (opt_prop (opt_index0 (opt_prop res "candidates")) "content")
          "parts"))
    "text".

(** The platform with another [JSON.parse]. *)
Definition with_parse (P : Platform) (parse : string -> outcome jsval)
  : Platform :=
  {| JSON_parse := parse;
     TypeError_read := TypeError_read P;
     TypeError_toPrimitive := TypeError_toPrimitive P |}.

(** What is thrown, if anything, is an [Error] object. *)
Definition throws_error {A : Type} (r : result A) : Prop :=
  match r with
  | Throw JsUndefined => False
  | _ => True
  end.

(** ** Inputs of the examples *)

(** JSON texts are written with ['] for the double quote. *)
Fixpoint dq (s : string) : string :=
  match s with
  | EmptyString => EmptyString
  | String c r =>
      String (if nat_of_ascii c =? 39 then ascii_of_nat 34 else c) (dq r)
  end.

(** A response with the given status and body. *)
Definition response_of (st : nat) (body : string) : Response :=
  {| status := st; text := Returns body; json := Engine.parse body |}.

(** The network that answers every call alike; [Math.random] yields 1/2. *)
Definition always (o : outcome Response) : World :=
  {| net := fun _ => o; random := fun _ => 1 # 2 |}.

(** The network whose first answers are listed, and that fails after. *)
Definition answering (os : list (outcome Response)) : World :=
  {| net := fun i => nth i os (Raises "Failed to fetch");
     random := fun _ => 1 # 2 |}.

(** The constraints of the end-to-end example of the specification. *)
Definition chicken_rice : Answers :=
  {| ingredients := "chicken, rice"; diet := "non-veg"; fatType := "oil";
     allergies := EmptyString; specialRequest := EmptyString |}.

(** The form as it is first rendered. *)
Definition blank_form : Answers :=
  {| ingredients := EmptyString; diet := "veg"; fatType := "oil";
     allergies := EmptyString; specialRequest := EmptyString |}.

Definition envelope_of (recipe_text : string) : jsval :=
  JObj [("candidates",
         JArr [JObj [("content",
                      JObj [("parts", JArr [JObj [("text", JStr recipe_text)]])])]])].

(** An [ok] response whose envelope carries the given text. *)
Definition generated (recipe_text : string) : Response :=
  {| status := 200; text := Returns EmptyString;
     json := Returns (envelope_of recipe_text) |}.

Definition stir_fry : jsval :=
  JObj [("recipeName", JStr "Stir Fry");
        ("description", JStr "d");
        ("ingredients", JArr [JStr "1 cup rice"]);
        ("instructions", JArr [JStr "cook"]);
        ("prepTimeMinutes", JNum "20")].

(** ** The form: [handleChange] and its controls *)

(** [answers[name]], for the properties that the program reads. *)
Definition field (name : string) (answers : Answers) : option string :=
  if String.eqb name "ingredients" then Some (ingredients answers)
  else if String.eqb name "diet" then Some (diet answers)
  else if String.eqb name "fatType" then Some (fatType answers)
  else if String.eqb name "allergies" then Some (allergies answers)
  else if String.eqb name "specialRequest" then Some (specialRequest answers)
  else None.

(** [handleChange]: with [name] and [value] read off [e.target], the
    updater [prev => ({ ...prev, [name]: value })].  Under a name other
    than the five the object gains a property that the program never
    reads, and the five keep their values. *)
Definition handleChange (name value : string) (prev : Answers) : Answers :=
  if String.eqb name "ingredients" then
    {| ingredients := value; diet := diet prev; fatType := fatType prev;
       allergies := allergies prev; specialRequest := specialRequest prev |}
  else if String.eqb name "diet" then
    {| ingredients := ingredients prev; diet := value; fatType := fatType prev;
       allergies := allergies prev; specialRequest := specialRequest prev |}
  else if String.eqb name "fatType" then
    {| ingredients := ingredients prev; diet := diet prev; fatType := value;
       allergies := allergies prev; specialRequest := specialRequest prev |}
  else if String.eqb name "allergies" then
    {| ingredients := ingredients prev; diet := diet prev;
       fatType := fatType prev; allergies := value;
       specialRequest := specialRequest prev |}
  else if String.eqb name "specialRequest" then
    {| ingredients := ingredients prev; diet := diet prev;
       fatType := fatType prev; allergies := allergies prev;
       specialRequest := value |}
  else prev.

(** The controls of the form whose [onChange] is [handleChange]: three
    text inputs and two groups of two radio buttons, each with its [name],
    a radio button with its [value]. *)
Inductive control : Type :=
| TextInput (name : string)
| Radio (name value : string).

Definition controls : list control :=
  [TextInput "ingredients";
   Radio "diet" "veg"; Radio "diet" "non-veg";
   Radio "fatType" "oil"; Radio "fatType" "butter";
   TextInput "allergies"; TextInput "specialRequest"].

(** [checked={answers.diet === 'veg'}] and its three siblings. *)
Definition checked (c : control) (answers : Answers) : bool :=
  match c with
  | Radio name value =>
      match field name answers with
      | Some v => String.eqb v value
      | None => false
      end
  | TextInput _ => false
  end.

(** A change event of a control: a text input reports the text it holds, a
    radio button its [value]. *)
Inductive form_change : Answers -> Answers -> Prop :=
| change_text (name value : string) (prev : Answers) :
    In (TextInput name) controls ->
    form_change prev (handleChange name value prev)
| change_radio (name value : string) (prev : Answers) :
    In (Radio name value) controls ->
    form_change prev (handleChange name value prev).

(** The answers that the form can hold, from those of the first render
    ([useState] with empty texts, [veg] and [oil]). *)
Inductive form_reachable : Answers -> Prop :=
| form_initial : form_reachable blank_form
| form_step (a b : Answers) :
    form_reachable a -> form_change a b -> form_reachable b.

(** The lines of a text (the pieces between line feeds). *)
Fixpoint lines_from (current : string) (s : string) : list string :=
  match s with
  | EmptyString => [current]
  | String c r =>
      if nat_of_ascii c =? 10 then current :: lines_from EmptyString r
      else lines_from (current ++ String c EmptyString) r
  end.

Definition lines (s : string) : list string := lines_from EmptyString s.

Fixpoint single_line (s : string) : bool :=
  match s with
  | EmptyString => true
  | String c r => negb (nat_of_ascii c =? 10) && single_line r
  end.

(** ** The timeline of a run of the transport *)

(** The time spent in the waits of a trace, in milliseconds. *)
Definition total_wait (tr : list event) : Q :=
  fold_right Qplus 0%Q (sleeps tr).

Fixpoint sum_base (n : nat) : Q :=
  match n with
  | 0 => 0%Q
  | S m => (sum_base m + backoff_base m)%Q
  end.

(** ** The view: what [App] renders below the form

    An element is represented by its tag, its [className] and its
    children, an icon component of [lucide-react] by its name; the other
    attributes ([style], [size], [key]) are left out. *)
#[local] Set Warnings "-register-all".
Inductive vnode : Type :=
| VText (s : string)
| VIcon (component : string)
| VElem (tag className : string) (children : list vnode).

(** The texts of the errors that rendering can raise besides those of
    [Platform]: the [TypeError] of a call of something that is no function
    (given the text of the callee), and the error of React for an object
    placed among the children of an element. *)
Record ViewHost : Type := {
  TypeError_not_function : string -> string;
  React_invalid_child : jsval -> string
}.

Section View.

Variable P : Platform.
Variable H : ViewHost.

(** What React makes of a value placed as [{v}] among the children of an
    element: a text for a string or a number (none for the empty string),
    nothing for [undefined], [null] and the booleans, the children of its
    elements for an array; an object is refused. *)
Fixpoint child (v : jsval) : result (list vnode) :=
  match v with
  | JUndefined | JNull | JBool _ => Ok []
  | JNum r => Ok [VText r]
  | JStr s => if String.eqb s "" then Ok [] else Ok [VText s]
  | JArr elems =>
      (fix all (l : list jsval) : result (list vnode) :=
         match l with
         | [] => Ok []
         | x :: rest =>
             a <- child x ;;
             b <- all rest ;;
             Ok (a ++ b)%list
         end) elems
  | JObj _ => Throw (JsError (React_invalid_child H v))
  end.

(** [v.map(item => ...)]: the elements of an array, in order; any other
    value has no method [map] to call. *)
Definition js_map (v : jsval) (callee : string) : result (list jsval) :=
  match v with
  | JArr elems => Ok elems
  | JUndefined | JNull => Throw (JsError (TypeError_read P v "map"))
  | _ => Throw (JsError (TypeError_not_function H callee))
  end.

(** [<li key={index}>{item}</li>] for each item. *)
Fixpoint list_items (items : list jsval) : result (list vnode) :=
  match items with
  | [] => Ok []
  | item :: rest =>
      c <- child item ;;
      lis <- list_items rest ;;
      Ok (VElem "li" "" c :: lis)
  end.

(** The element of [renderRecipeCard], given the children of its holes. *)
Definition recipe_card (name description time : list vnode)
  (ingredient_items instruction_items : list vnode) : vnode :=
  VElem "div" "recipe-card animate-in"
    [VElem "div" "recipe-header"
       [VIcon "ChefHat"; VElem "h2" "recipe-name" name];
     VElem "p" "recipe-description" description;
     VElem "div" "recipe-time"
       (VIcon "Timer" :: time ++ [VText " Minutes Total"]);
     VElem "div" "recipe-details-grid"
       [VElem "div" "ingredients-box"
          [VElem "h3" "details-title" [VIcon "Utensils"; VText " Ingredients"];
           VElem "ul" "details-list" ingredient_items];
        VElem "div" "instructions-box"
          [VElem "h3" "details-title" [VIcon "CookingPot"; VText " Instructions"];
           VElem "ol" "details-list ordered" instruction_items]]].

(** [renderRecipeCard]: the expressions in the braces are evaluated in the
    order of the text (the two calls of [map] can throw), then React renders
    the children, in the order of the tree. *)
Definition renderRecipeCard (recipe : jsval) : result vnode :=
  recipeName <- get_prop P recipe "recipeName" ;;
  description <- get_prop P recipe "description" ;;
  prepTimeMinutes <- get_prop P recipe "prepTimeMinutes" ;;
  ing <- get_prop P recipe "ingredients" ;;
  items <- js_map ing "recipe.ingredients.map" ;;
  ins <- get_prop P recipe "instructions" ;;
  steps <- js_map ins "recipe.instructions.map" ;;
  n <- child recipeName ;;
  d <- child description ;;
  t <- child prepTimeMinutes ;;
  lis <- list_items items ;;
  ols <- list_items steps ;;
  Ok (recipe_card n d t lis ols).

(** The children of the submit button:
    [isLoading ? (<>...</>) : 'Generate Recipe']. *)
Definition submit_label (s : AppState) : list vnode :=
  if isLoading s
  then [VIcon "Loader2"; VText "Whipping up your recipe..."]
  else [VText "Generate Recipe"].

Definition error_message (e : string) : vnode :=
  VElem "div" "error-message"
    [VIcon "AlertTriangle"; VElem "p" "" [VText e]].

Definition placeholder : vnode :=
  VElem "div" "placeholder"
    [VIcon "CookingPot";
     VElem "p" ""
       [VText (dq "Fill out the form above and click 'Generate Recipe' to see your custom dish!")]].

(** [{error && (...)}]. *)
Definition error_display (s : AppState) : list vnode :=
  match error s with
  | Some e => if String.eqb e "" then [] else [error_message e]
  | None => []
  end.

(** [{recipe && renderRecipeCard(recipe)}]: a falsy [recipe] is itself the
    value in the braces. *)
Definition recipe_output (s : AppState) : result (list vnode) :=
  match recipe s with
  | None => Ok []
  | Some r =>
      if truthy r then card <- renderRecipeCard r ;; Ok [card]
      else child r
  end.

(** [{!recipe && !isLoading && !error && (...)}]. *)
Definition placeholder_display (s : AppState) : list vnode :=
  let no_recipe :=
    match recipe s with
    | Some r => negb (truthy r)
    | None => true
    end in
  let no_error :=
    match error s with
    | Some e => String.eqb e ""
    | None => true
    end in
  if no_recipe && negb (isLoading s) && no_error then [placeholder] else [].

(** The three children of [main-content] that follow the form card. *)
Definition render_output (s : AppState) : result (list vnode) :=
  card <- recipe_output s ;;
  Ok (error_display s ++ card ++ placeholder_display s)%list.

End View.

(** The texts of V8 and of React, for the examples. *)
Fixpoint keys_text (props : list (string * jsval)) : string :=
  match props with
  | [] => EmptyString
  | [(k, _)] => k
  | (k, _) :: rest => k ++ ", " ++ keys_text rest
  end.

Definition engine_view : ViewHost :=
  {| TypeError_not_function := fun callee => callee ++ " is not a function";
     React_invalid_child := fun v =>
       "Objects are not valid as a React child (found: object with keys {"
       ++ (match v with JObj props => keys_text props | _ => EmptyString end)
       ++ "}). If you meant to render a collection of children, use an array instead." |}.

(** What a state reached through the page holds: nothing, or a recipe that
    passed the check, or a message that is not empty. *)
Definition well_formed (P : Platform) (s : AppState) : Prop :=
  match view s with
  | Some Idle | Some Loading => True
  | Some (Success p) => check_core_fields P p = Ok p
  | Some (Failure m) => m <> EmptyString
  | None => False
  end.

(** * Facts *)

(** ** The examples of the specification *)

Example parse_stir_fry :
  Engine.parse (dq "{'recipeName':'Stir Fry','description':'d','ingredients':['1 cup rice'],'instructions':['cook'],'prepTimeMinutes':20}")
  = Returns stir_fry.
Proof. vm_compute. reflexivity. Qed.

Example stir_fry_meets_spec : spec_recipe stir_fry = true.
Proof. reflexivity. Qed.

Example prompt_of_chicken_rice :
  userQuery chicken_rice
  = "Generate a single, unique food recipe based on the following strict criteria:" ++ NL
    ++ "- Main Ingredients: chicken, rice" ++ NL
    ++ "- Dietary Type: Non-Vegetarian" ++ NL
    ++ "- Cooking Fat: Use oil exclusively." ++ NL
    ++ "- Allergies to Avoid: None, ensure safety." ++ NL
    ++ "- Special Request/Style: Make it simple and delicious." ++ NL
    ++ "The entire response MUST be a single JSON object conforming to the provided schema. DO NOT include any text outside the JSON structure.".
Proof. reflexivity. Qed.

(** End to end, over a network that fails twice before it answers: three
    calls, two waits (of 1500 and 2500 milliseconds), and the recipe of the
    specification's example. *)
Example end_to_end :
  let w :=
    answering
      [Raises "Failed to fetch";
       Returns (response_of 503 EmptyString);
       Returns (generated (dq "{'recipeName':'Stir Fry','description':'d','ingredients':['1 cup rice'],'instructions':['cook'],'prepTimeMinutes':20}"))] in
  let r := ChefApp.generateRecipe Engine.platform "k" chicken_rice w initial_state in
  view (fst (fst r)) = Some (Success stir_fry)
  /\ calls (snd (fst r)) = 3
  /\ sleeps (snd (fst r)) = [3000 # 2; 5000 # 2].
Proof. cbv zeta. repeat split; vm_compute; reflexivity. Qed.

(** A generated text without a name is refused. *)
Example description_only :
  view (fst (fst (Part000.generateRecipe Engine.platform "e" "k" blank_form
                    (always (Returns (generated (dq "{'description':'x'}"))))
                    initial_state)))
  = Some (Failure "Failed to generate recipe: Generated JSON is missing core recipe fields.. Please refine your input and try again.").
Proof. vm_compute. reflexivity. Qed.

(** ** Traces *)

Lemma calls_app (tr1 tr2 : list event) :
  calls (tr1 ++ tr2) = calls tr1 + calls tr2.
Proof.
  unfold calls. now rewrite filter_app, length_app.
Qed.

Lemma sleeps_app (tr1 tr2 : list event) :
  sleeps (tr1 ++ tr2) = (sleeps tr1 ++ sleeps tr2)%list.
Proof.
  induction tr1 as [|e tr1 IH]; simpl; [reflexivity|].
  destruct e; simpl; now rewrite IH.
Qed.

Lemma backoff_base_increasing (i : nat) :
  (backoff_base i < backoff_base (S i))%Q.
Proof.
  unfold backoff_base.
  apply Qmult_lt_compat_r; [reflexivity|].
  rewrite <- Zlt_Qlt.
  rewrite Nat2Z.inj_succ, Z.pow_succ_r by lia.
  assert (0 < 2 ^ Z.of_nat i)%Z by (apply Z.pow_pos_nonneg; lia).
  lia.
Qed.

(** ** The retry loop of [chefApp.jsx] *)

Section ChefAppTransport.

Variable P : Platform.
Variable w : World.
Variables (url : string) (options : Options) (maxRetries : nat).

Local Abbreviation loop := (ChefApp.retry_loop P w url options maxRetries).
Local Abbreviation wait i := (backoff_base i + random w i * 1000)%Q.

Lemma chefApp_attempt_fails (o : outcome Response) :
  succeeds o = false -> exists m, ChefApp.attempt o = Throw (JsError m).
Proof.
  unfold succeeds, ChefApp.attempt.
  destruct o as [r|m]; cbn [run bind]; intros H.
  - rewrite H. cbn [negb]. destruct (status r =? 400); eauto.
  - eauto.
Qed.

Lemma chefApp_attempt_succeeds (o : outcome Response) :
  succeeds o = true -> exists r, o = Returns r /\ ChefApp.attempt o = Ok r.
Proof.
  unfold succeeds, ChefApp.attempt.
  destruct o as [r|m]; cbn [run bind]; intros H; [|discriminate].
  exists r. now rewrite H.
Qed.

Lemma chefApp_attempt_400 (r : Response) :
  status r = 400 ->
  ChefApp.attempt (Returns r)
  = Throw (JsError "Bad Request: Invalid input to the API.").
Proof.
  intros H. unfold ChefApp.attempt, ok. cbn [run bind]. now rewrite H.
Qed.

Lemma chefApp_loop_fail (k i : nat) (e : thrown) (m : string) :
  ChefApp.attempt (net w i) = Throw (JsError m) ->
  loop (S k) i e =
    (fst (loop k (S i) (JsError m)),
     EvFetch url options
       :: (if i <? maxRetries - 1 then [EvSleep (wait i)] else [])
       ++ snd (loop k (S i) (JsError m))).
Proof.
  intros H. simpl. rewrite H.
  now destruct (loop k (S i) (JsError m)).
Qed.

Lemma chefApp_loop_success (k i : nat) (e : thrown) (r : Response) :
  ChefApp.attempt (net w i) = Ok r ->
  loop (S k) i e = (Ok r, [EvFetch url options]).
Proof.
  intros H. simpl. now rewrite H.
Qed.

(** Every iteration starts with its network call. *)
Lemma chefApp_loop_head (k i : nat) (e : thrown) :
  exists post, snd (loop (S k) i e) = EvFetch url options :: post.
Proof.
  destruct (ChefApp.attempt (net w i)) as [r|[m|]] eqn:H.
  - rewrite (chefApp_loop_success k i e r H). cbn [snd]. eauto.
  - rewrite (chefApp_loop_fail k i e m H). cbn [snd]. eauto.
  - exfalso. destruct (succeeds (net w i)) eqn:Hs.
    + destruct (chefApp_attempt_succeeds _ Hs) as [r [_ Hr]]. congruence.
    + destruct (chefApp_attempt_fails _ Hs) as [m Hm]. congruence.
Qed.

(** When every remaining attempt fails, the loop makes all of them, waits
    after each but the last, and the final [throw] wraps the message of the
    last failure. *)
Lemma chefApp_loop_exhausted (k : nat) :
  forall (i : nat) (e : thrown),
    (forall j, i <= j < i + S k -> succeeds (net w j) = false) ->
    calls (snd (loop (S k) i e)) = S k /\
    exists m,
      ChefApp.attempt (net w (i + k)) = Throw (JsError m) /\
      fst (loop (S k) i e) =
        Throw (JsError ("API call failed after " ++ show_nat maxRetries
                        ++ " attempts: " ++ m)).
Proof.
  induction k as [|k IH]; intros i e Hall.
  - destruct (chefApp_attempt_fails (net w i)) as [m Hm]; [apply Hall; lia|].
    rewrite (chefApp_loop_fail 0 i e m Hm). simpl.
    split.
    + destruct (i <? maxRetries - 1); reflexivity.
    + exists m. rewrite Nat.add_0_r. split; [exact Hm | reflexivity].
  - destruct (chefApp_attempt_fails (net w i)) as [m Hm]; [apply Hall; lia|].
    rewrite (chefApp_loop_fail (S k) i e m Hm).
    destruct (IH (S i) (JsError m)) as [Hc [m' [Hm' Hr]]];
      [intros j Hj; apply Hall; lia|].
    cbn [fst snd]. split.
    + change (EvFetch url options :: ?l) with ([EvFetch url options] ++ l)%list.
      rewrite !calls_app, Hc.
      destruct (i <? maxRetries - 1); reflexivity.
    + exists m'. split; [|exact Hr].
      now replace (i + S k) with (S i + k) by lia.
Qed.

(** After [j + 1] failed attempts, with attempts remaining, the wait of
    iteration [i + j] stands right before the next network call. *)
Lemma chefApp_loop_wait (j : nat) :
  forall (k i : nat) (e : thrown),
    (forall t, i <= t <= i + j -> succeeds (net w t) = false) ->
    i + j < maxRetries - 1 ->
    j + 1 < k ->
    exists pre post,
      snd (loop k i e)
      = (pre ++ EvSleep (wait (i + j)) :: EvFetch url options :: post)%list
      /\ calls pre = S j /\ List.length (sleeps pre) = j.
Proof.
  induction j as [|j IH]; intros k i e Hfail Hlt Hk.
  - destruct k as [|[|k]]; try lia.
    destruct (chefApp_attempt_fails (net w i)) as [m Hm]; [apply Hfail; lia|].
    rewrite (chefApp_loop_fail (S k) i e m Hm). cbn [snd].
    replace (i <? maxRetries - 1) with true by (symmetry; apply Nat.ltb_lt; lia).
    destruct (chefApp_loop_head k (S i) (JsError m)) as [post Hpost].
    rewrite Hpost. exists [EvFetch url options], post.
    rewrite Nat.add_0_r. repeat split.
  - destruct k as [|k]; try lia.
    destruct (chefApp_attempt_fails (net w i)) as [m Hm]; [apply Hfail; lia|].
    rewrite (chefApp_loop_fail k i e m Hm). cbn [snd].
    replace (i <? maxRetries - 1) with true by (symmetry; apply Nat.ltb_lt; lia).
    destruct (IH k (S i) (JsError m)) as [pre [post [Htr [Hc Hs]]]];
      [intros t Ht; apply Hfail; lia | lia | lia |].
    rewrite Htr.
    exists (EvFetch url options :: EvSleep (wait i) :: pre), post.
    replace (i + S j) with (S i + j) by lia.
    repeat split.
    + unfold calls in *. simpl. now rewrite Hc.
    + simpl. now rewrite Hs.
Qed.

End ChefAppTransport.

(** ** The retry loop of [part_000] *)

Section Part000Transport.

Variable P : Platform.
Variable w : World.
Variables (url : string) (options : Options) (maxRetries : nat).

Local Abbreviation loop := (Part000.retry_loop P w url options maxRetries).
Local Abbreviation log i e :=
  (EvLog ("Attempt " ++ show_nat (i + 1) ++ " failed:") e).

Lemma part000_attempt_fails (o : outcome Response) :
  succeeds o = false -> exists m, Part000.attempt P o = Throw (JsError m).
Proof.
  unfold succeeds, Part000.attempt.
  destruct o as [r|m]; cbn [run bind]; intros H.
  - rewrite H. cbn [negb]. destruct (text r); cbn [run bind]; eauto.
  - eauto.
Qed.

Lemma part000_attempt_succeeds (o : outcome Response) :
  succeeds o = true ->
  exists r, o = Returns r /\ Part000.attempt P o = Ok r.
Proof.
  unfold succeeds, Part000.attempt.
  destruct o as [r|m]; cbn [run bind]; intros H; [|discriminate].
  exists r. now rewrite H.
Qed.

(** What a non-[ok] response whose body can be read makes the attempt
    throw. *)
Lemma part000_attempt_message (r : Response) (errorText : string) :
  ok r = false ->
  text r = Returns errorText ->
  Part000.attempt P (Returns r)
  = Throw (JsError (Part000.errorMessage P errorText r)).
Proof.
  intros Hok Ht. unfold Part000.attempt. cbn [run bind].
  now rewrite Hok, Ht.
Qed.

Lemma part000_loop_fail (k i : nat) (e : thrown) (m : string) :
  Part000.attempt P (net w i) = Throw (JsError m) ->
  loop (S k) i e =
    (fst (loop k (S i) (JsError m)),
     EvFetch url options
       :: log i (JsError m)
       :: (if i <? maxRetries - 1 then [EvSleep (backoff_base i)] else [])
       ++ snd (loop k (S i) (JsError m))).
Proof.
  intros H. simpl. rewrite H.
  now destruct (loop k (S i) (JsError m)).
Qed.

Lemma part000_loop_success (k i : nat) (e : thrown) (r : Response) :
  Part000.attempt P (net w i) = Ok r ->
  loop (S k) i e = (Ok r, [EvFetch url options]).
Proof.
  intros H. simpl. now rewrite H.
Qed.

Lemma part000_loop_head (k i : nat) (e : thrown) :
  exists post, snd (loop (S k) i e) = EvFetch url options :: post.
Proof.
  destruct (succeeds (net w i)) eqn:Hs.
  - destruct (part000_attempt_succeeds _ Hs) as [r [_ Hr]].
    rewrite (part000_loop_success k i e r Hr). cbn [snd]. eauto.
  - destruct (part000_attempt_fails _ Hs) as [m Hm].
    rewrite (part000_loop_fail k i e m Hm). cbn [snd]. eauto.
Qed.

(** When every remaining attempt fails, the loop makes all of them and the
    final [throw] rethrows the last failure. *)
Lemma part000_loop_exhausted (k : nat) :
  forall (i : nat) (e : thrown),
    (forall j, i <= j < i + S k -> succeeds (net w j) = false) ->
    calls (snd (loop (S k) i e)) = S k /\
    exists m,
      Part000.attempt P (net w (i + k)) = Throw (JsError m) /\
      fst (loop (S k) i e) = Throw (JsError m).
Proof.
  induction k as [|k IH]; intros i e Hall.
  - destruct (part000_attempt_fails (net w i)) as [m Hm]; [apply Hall; lia|].
    rewrite (part000_loop_fail 0 i e m Hm). simpl.
    split.
    + destruct (i <? maxRetries - 1); reflexivity.
    + exists m. rewrite Nat.add_0_r. split; [exact Hm | reflexivity].
  - destruct (part000_attempt_fails (net w i)) as [m Hm]; [apply Hall; lia|].
    rewrite (part000_loop_fail (S k) i e m Hm).
    destruct (IH (S i) (JsError m)) as [Hc [m' [Hm' Hr]]];
      [intros j Hj; apply Hall; lia|].
    cbn [fst snd]. split.
    + change (EvFetch url options :: ?a :: ?l)
        with ([EvFetch url options; a] ++ l)%list.
      rewrite !calls_app, Hc.
      destruct (i <? maxRetries - 1); reflexivity.
    + exists m'. split; [|exact Hr].
      now replace (i + S k) with (S i + k) by lia.
Qed.

Lemma part000_loop_wait (j : nat) :
  forall (k i : nat) (e : thrown),
    (forall t, i <= t <= i + j -> succeeds (net w t) = false) ->
    i + j < maxRetries - 1 ->
    j + 1 < k ->
    exists pre post,
      snd (loop k i e)
      = (pre ++ EvSleep (backoff_base (i + j)) :: EvFetch url options :: post)%list
      /\ calls pre = S j /\ List.length (sleeps pre) = j.
Proof.
  induction j as [|j IH]; intros k i e Hfail Hlt Hk.
  - destruct k as [|[|k]]; try lia.
    destruct (part000_attempt_fails (net w i)) as [m Hm]; [apply Hfail; lia|].
    rewrite (part000_loop_fail (S k) i e m Hm). cbn [snd].
    replace (i <? maxRetries - 1) with true by (symmetry; apply Nat.ltb_lt; lia).
    destruct (part000_loop_head k (S i) (JsError m)) as [post Hpost].
    rewrite Hpost. exists [EvFetch url options; log i (JsError m)], post.
    rewrite Nat.add_0_r. repeat split.
  - destruct k as [|k]; try lia.
    destruct (part000_attempt_fails (net w i)) as [m Hm]; [apply Hfail; lia|].
    rewrite (part000_loop_fail k i e m Hm). cbn [snd].
    replace (i <? maxRetries - 1) with true by (symmetry; apply Nat.ltb_lt; lia).
    destruct (IH k (S i) (JsError m)) as [pre [post [Htr [Hc Hs]]]];
      [intros t Ht; apply Hfail; lia | lia | lia |].
    rewrite Htr.
    exists (EvFetch url options :: log i (JsError m)
              :: EvSleep (backoff_base i) :: pre), post.
    replace (i + S j) with (S i + j) by lia.
    repeat split.
    + unfold calls in *. simpl. now rewrite Hc.
    + simpl. now rewrite Hs.
Qed.

End Part000Transport.

(** ** The transport: retries, exhaustion, waits *)

Lemma status_400_fails (r : Response) :
  status r = 400 -> succeeds (Returns r) = false.
Proof.
  intros H. unfold succeeds, ok. now rewrite H.
Qed.

(** C1, as the specification states it, fails: with every attempt answered
    by status 400, [fetchWithRetry] of [chefApp.jsx], called as
    [generateRecipe] calls it, makes five network calls and waits four
    times before it raises. *)
Lemma bad_request_not_terminal :
  let r :=
    ChefApp.fetchWithRetry Engine.platform
      (always (Returns (response_of 400 EmptyString)))
      (ChefApp.API_URL ++ "?key=" ++ "k") (request_options blank_form)
      ChefApp.default_maxRetries in
  net (always (Returns (response_of 400 EmptyString))) 0
    = Returns (response_of 400 EmptyString)
  /\ status (response_of 400 EmptyString) = 400
  /\ calls (snd r) = 5
  /\ List.length (sleeps (snd r)) = 4
  /\ ~ terminal_after_one_call r.
Proof.
  cbv zeta. repeat split.
  intros [H _]. vm_compute in H. discriminate H.
Qed.

(** C1, amended: a first attempt answered by status 400 is a failed attempt
    like any other.  With a budget of one attempt the transport makes one
    call and raises without waiting; with a budget of two or more it waits
    (one second, plus the jitter in [chefApp.jsx]) and makes a second
    call. *)
Theorem bad_request_is_retried
  (P : Platform) (w : World) (url : string) (options : Options)
  (maxRetries : nat) (r : Response) :
  net w 0 = Returns r ->
  status r = 400 ->
  (maxRetries = 1 ->
   terminal_after_one_call (ChefApp.fetchWithRetry P w url options maxRetries)
   /\ terminal_after_one_call (Part000.fetchWithRetry P w url options maxRetries))
  /\
  (2 <= maxRetries ->
   (exists post,
      snd (ChefApp.fetchWithRetry P w url options maxRetries)
      = EvFetch url options
          :: EvSleep (backoff_base 0 + random w 0 * 1000)
          :: EvFetch url options :: post)
   /\
   (exists e post,
      snd (Part000.fetchWithRetry P w url options maxRetries)
      = EvFetch url options
          :: EvLog "Attempt 1 failed:" e
          :: EvSleep (backoff_base 0)
          :: EvFetch url options :: post)).
Proof.
  intros Hnet Hst.
  assert (Hf : succeeds (net w 0) = false)
    by (rewrite Hnet; now apply status_400_fails).
  assert (Hc : ChefApp.attempt (net w 0)
               = Throw (JsError "Bad Request: Invalid input to the API."))
    by (rewrite Hnet; now apply chefApp_attempt_400).
  destruct (part000_attempt_fails P _ Hf) as [m Hm].
  split.
  - intros ->. unfold terminal_after_one_call.
    unfold ChefApp.fetchWithRetry, Part000.fetchWithRetry.
    rewrite (chefApp_loop_fail P w url options 1 0 0 JsUndefined _ Hc).
    rewrite (part000_loop_fail P w url options 1 0 0 JsUndefined _ Hm).
    cbn. repeat split; eauto.
  - intros H2. destruct maxRetries as [|[|n]]; try lia.
    unfold ChefApp.fetchWithRetry, Part000.fetchWithRetry.
    rewrite (chefApp_loop_fail P w url options _ (S n) 0 JsUndefined _ Hc).
    rewrite (part000_loop_fail P w url options _ (S n) 0 JsUndefined _ Hm).
    cbn [snd].
    destruct (chefApp_loop_head P w url options (S (S n)) n 1
                (JsError "Bad Request: Invalid input to the API."))
      as [post1 H1].
    destruct (part000_loop_head P w url options (S (S n)) n 1 (JsError m))
      as [post2 H2'].
    rewrite H1, H2'. cbn. split; eauto.
Qed.

Lemma bad_request_is_retried_witness :
  exists post,
    snd (ChefApp.fetchWithRetry Engine.platform
           (always (Returns (response_of 400 EmptyString)))
           "u" (request_options blank_form) 5)
    = EvFetch "u" (request_options blank_form)
        :: EvSleep (backoff_base 0 + (1 # 2) * 1000)
        :: EvFetch "u" (request_options blank_form) :: post.
Proof.
  refine (proj1 (proj2 (bad_request_is_retried Engine.platform
            (always (Returns (response_of 400 EmptyString)))
            "u" (request_options blank_form) 5
            (response_of 400 EmptyString) _ _) _)).
  - reflexivity.
  - reflexivity.
  - lia.
Defined.

(** C2: if every attempt fails, the transport makes exactly [maxRetries]
    network calls and then raises an error that carries the last failure:
    [chefApp.jsx] wraps its message in "API call failed after N attempts:",
    [part_000] rethrows it. *)
Theorem retry_exhausted
  (P : Platform) (w : World) (url : string) (options : Options)
  (maxRetries : nat) :
  1 <= maxRetries ->
  (forall i, i < maxRetries -> succeeds (net w i) = false) ->
  (calls (snd (ChefApp.fetchWithRetry P w url options maxRetries)) = maxRetries
   /\ exists m,
       ChefApp.attempt (net w (maxRetries - 1)) = Throw (JsError m)
       /\ fst (ChefApp.fetchWithRetry P w url options maxRetries)
          = Throw (JsError ("API call failed after " ++ show_nat maxRetries
                            ++ " attempts: " ++ m)))
  /\
  (calls (snd (Part000.fetchWithRetry P w url options maxRetries)) = maxRetries
   /\ exists m,
       Part000.attempt P (net w (maxRetries - 1)) = Throw (JsError m)
       /\ fst (Part000.fetchWithRetry P w url options maxRetries)
          = Throw (JsError m)).
Proof.
  intros H1 Hall. destruct maxRetries as [|n]; [lia|].
  replace (S n - 1) with (0 + n) by lia.
  split.
  - apply chefApp_loop_exhausted. intros j Hj. apply Hall. lia.
  - apply part000_loop_exhausted. intros j Hj. apply Hall. lia.
Qed.

Lemma retry_exhausted_witness :
  calls (snd (Part000.fetchWithRetry Engine.platform
                (always (Returns (response_of 503 EmptyString)))
                "u" (request_options blank_form) 3)) = 3
  /\ exists m,
      Part000.attempt Engine.platform
        (net (always (Returns (response_of 503 EmptyString))) (3 - 1))
      = Throw (JsError m)
      /\ fst (Part000.fetchWithRetry Engine.platform
                (always (Returns (response_of 503 EmptyString)))
                "u" (request_options blank_form) 3)
         = Throw (JsError m).
Proof.
  refine (proj2 (retry_exhausted Engine.platform
            (always (Returns (response_of 503 EmptyString)))
            "u" (request_options blank_form) 3 _ _)).
  - lia.
  - intros i _. reflexivity.
Defined.

(** C5: when the attempts up to index [i] fail and attempts remain, the
    trace has a wait right before the call of attempt [i + 1]; in
    milliseconds it is [2^i * 1000] plus a jitter between 0 and 1000 in
    [chefApp.jsx], and exactly [2^i * 1000] in [part_000]; the lower bound
    [2^i * 1000] is strictly increasing in [i]. *)
Theorem backoff_wait
  (P : Platform) (w : World) (url : string) (options : Options)
  (maxRetries i : nat) :
  random_in_range w ->
  (forall t, t <= i -> succeeds (net w t) = false) ->
  i + 1 < maxRetries ->
  (exists pre post d,
     snd (ChefApp.fetchWithRetry P w url options maxRetries)
     = (pre ++ EvSleep d :: EvFetch url options :: post)%list
     /\ calls pre = S i /\ List.length (sleeps pre) = i
     /\ (backoff_base i <= d)%Q /\ (d <= backoff_base i + 1000)%Q)
  /\
  (exists pre post,
     snd (Part000.fetchWithRetry P w url options maxRetries)
     = (pre ++ EvSleep (backoff_base i) :: EvFetch url options :: post)%list
     /\ calls pre = S i /\ List.length (sleeps pre) = i)
  /\ (backoff_base i == inject_Z (2 ^ Z.of_nat i) * 1000)%Q
  /\ (backoff_base i < backoff_base (S i))%Q.
Proof.
  intros Hrnd Hfail Hlt. split; [|split; [|split]].
  - destruct (chefApp_loop_wait P w url options maxRetries i
                maxRetries 0 JsUndefined) as [pre [post [Htr [Hc Hs]]]];
      [intros t Ht; apply Hfail; lia | lia | lia |].
    exists pre, post, (backoff_base (0 + i) + random w (0 + i) * 1000)%Q.
    cbn [Nat.add]. destruct (Hrnd i) as [H0 H1].
    repeat split; try assumption.
    + rewrite <- (Qplus_0_r (backoff_base i)) at 1.
      apply Qplus_le_r.
      apply Qmult_le_0_compat; [exact H0 | discriminate].
    + apply Qplus_le_r.
      setoid_replace 1000%Q with (1 * 1000)%Q at 2 by reflexivity.
      apply Qmult_le_compat_r; [apply Qlt_le_weak; exact H1 | discriminate].
  - destruct (part000_loop_wait P w url options maxRetries i
                maxRetries 0 JsUndefined) as [pre [post [Htr [Hc Hs]]]];
      [intros t Ht; apply Hfail; lia | lia | lia |].
    exists pre, post. cbn [Nat.add] in Htr. auto.
  - reflexivity.
  - apply backoff_base_increasing.
Qed.

Lemma backoff_wait_witness :
  exists pre post,
    snd (Part000.fetchWithRetry Engine.platform
           (always (Returns (response_of 500 EmptyString)))
           "u" (request_options blank_form) 3)
    = (pre ++ EvSleep (backoff_base 1)
         :: EvFetch "u" (request_options blank_form) :: post)%list
    /\ calls pre = 2 /\ List.length (sleeps pre) = 1.
Proof.
  refine (proj1 (proj2 (backoff_wait Engine.platform
            (always (Returns (response_of 500 EmptyString)))
            "u" (request_options blank_form) 3 1 _ _ _))).
  - intros i. split; [discriminate | reflexivity].
  - intros t _. reflexivity.
  - lia.
Defined.

(** ** Values and conversions *)

Lemma bind_throws_error {A B : Type} (r : result A) (k : A -> result B) :
  throws_error r -> (forall a, throws_error (k a)) -> throws_error (bind r k).
Proof.
  destruct r as [a|[m|]]; simpl; auto.
Qed.

Lemma run_throws_error {A : Type} (o : outcome A) : throws_error (run o).
Proof. destruct o; exact I. Qed.

Lemma get_prop_throws_error (P : Platform) (v : jsval) (p : string) :
  throws_error (get_prop P v p).
Proof. unfold get_prop. destruct (nullish v); exact I. Qed.

Lemma get_index0_throws_error (P : Platform) (v : jsval) :
  throws_error (get_index0 P v).
Proof. unfold get_index0. destruct (nullish v); exact I. Qed.

(** [ToString] throws nothing but the [TypeError] of an object that has no
    primitive value, at any depth. *)
Fixpoint ToString_throws_error (P : Platform) (v : jsval) {struct v} :
  throws_error (ToString P v).
Proof.
  destruct v as [| |[|]|r|s|elems|props]; try exact I.
  - cbn [ToString].
    induction elems as [|x rest IH]; [exact I|].
    apply bind_throws_error.
    + destruct (nullish x); [exact I | apply ToString_throws_error].
    + intros s. destruct rest as [|y rest']; [exact I|].
      apply bind_throws_error; [exact IH | intros t; exact I].
  - cbn [ToString]. destruct (lookup "toString" props); exact I.
Qed.

Lemma get_prop_non_nullish (P : Platform) (v : jsval) (p : string) :
  nullish v = false -> get_prop P v p = Ok (read_prop v p).
Proof. intros H. unfold get_prop. now rewrite H. Qed.

Lemma get_index0_non_nullish (P : Platform) (v : jsval) :
  nullish v = false -> get_index0 P v = Ok (read_index0 v).
Proof. intros H. unfold get_index0. now rewrite H. Qed.

Lemma truthy_non_nullish (v : jsval) : truthy v = true -> nullish v = false.
Proof. destruct v; simpl; congruence. Qed.

(** A truthy optional read was made on a value that is not nullish. *)
Lemma opt_prop_truthy (v : jsval) (p : string) :
  truthy (opt_prop v p) = true ->
  nullish v = false /\ opt_prop v p = read_prop v p.
Proof.
  unfold opt_prop. destruct (nullish v); simpl; [discriminate|auto].
Qed.

Lemma opt_prop_non_nullish (v : jsval) (p : string) :
  nullish (opt_prop v p) = false ->
  nullish v = false /\ opt_prop v p = read_prop v p.
Proof.
  unfold opt_prop. destruct (nullish v); simpl; [discriminate|auto].
Qed.

Lemma opt_index0_non_nullish (v : jsval) :
  nullish (opt_index0 v) = false ->
  nullish v = false /\ opt_index0 v = read_index0 v.
Proof.
  unfold opt_index0. destruct (nullish v); simpl; [discriminate|auto].
Qed.

(** ** Reading the recipe out of a response *)

Section Reading.

Variable P : Platform.

Lemma text_path_non_nullish (res : jsval) :
  nullish res = false -> text_path P res = Ok (nested_text res).
Proof.
  intros H. unfold text_path, nested_text.
  rewrite (get_prop_non_nullish P res _ H). cbn [bind].
  assert (E : opt_prop res "candidates" = read_prop res "candidates")
    by (unfold opt_prop; now rewrite H).
  now rewrite E.
Qed.

Lemma text_path_nullish (res : jsval) :
  nullish res = true ->
  text_path P res = Throw (JsError (TypeError_read P res "candidates"))
  /\ nested_text res = JUndefined.
Proof.
  intros H. unfold text_path, nested_text, get_prop.
  rewrite H. split; [reflexivity|].
  assert (E : opt_prop res "candidates" = JUndefined)
    by (unfold opt_prop; now rewrite H).
  now rewrite E.
Qed.

(** When the optional chain yields a truthy text, the plain reads of the
    same path yield it too. *)
Lemma text_of_nested (res : jsval) :
  truthy (nested_text res) = true -> text_of P res = Ok (nested_text res).
Proof.
  unfold nested_text. intros H.
  apply opt_prop_truthy in H. destruct H as [H5 E5]. rewrite E5.
  apply opt_index0_non_nullish in H5 as H4. destruct H4 as [H4 E4].
  rewrite E4 in *.
  apply opt_prop_non_nullish in H4 as H3. destruct H3 as [H3 E3].
  rewrite E3 in *.
  apply opt_prop_non_nullish in H3 as H2. destruct H2 as [H2 E2].
  rewrite E2 in *.
  apply opt_index0_non_nullish in H2 as H1. destruct H1 as [H1 E1].
  rewrite E1 in *.
  apply opt_prop_non_nullish in H1 as H0. destruct H0 as [H0 E0].
  rewrite E0 in *.
  unfold text_of.
  rewrite (get_prop_non_nullish P _ _ H0). cbn [bind].
  rewrite (get_index0_non_nullish P _ H1). cbn [bind].
  rewrite (get_prop_non_nullish P _ _ H2). cbn [bind].
  rewrite (get_prop_non_nullish P _ _ H3). cbn [bind].
  rewrite (get_index0_non_nullish P _ H4). cbn [bind].
  now rewrite (get_prop_non_nullish P _ _ H5).
Qed.

(** The check passes exactly the values with a truthy [recipeName] and an
    array for [ingredients], and passes them on unchanged. *)
Lemma check_core_fields_ok (p q : jsval) :
  check_core_fields P p = Ok q <->
  q = p /\ truthy (read_prop p "recipeName") = true
  /\ isArray (read_prop p "ingredients") = true.
Proof.
  unfold check_core_fields, get_prop.
  destruct (nullish p) eqn:Hn; cbn [bind].
  - split; [discriminate|].
    intros [_ [H _]]. destruct p; simpl in *; discriminate.
  - destruct (truthy (read_prop p "recipeName")); cbn [negb].
    + destruct (isArray (read_prop p "ingredients")); cbn [negb].
      * split; [intros [= <-]; auto | intros [-> _]; reflexivity].
      * split; [discriminate | intros [_ [_ H]]; discriminate].
    + split; [discriminate | intros [_ [H _]]; discriminate].
Qed.

Lemma check_core_fields_throws_error (p : jsval) :
  throws_error (check_core_fields P p).
Proof.
  unfold check_core_fields.
  apply bind_throws_error; [apply get_prop_throws_error|].
  intros name. destruct (negb (truthy name)); [exact I|].
  apply bind_throws_error; [apply get_prop_throws_error|].
  intros ing. destruct (negb (isArray ing)); exact I.
Qed.

Lemma text_of_throws_error (res : jsval) : throws_error (text_of P res).
Proof.
  unfold text_of.
  repeat (apply bind_throws_error;
          [first [apply get_prop_throws_error | apply get_index0_throws_error]
          | intros ?]).
  apply get_prop_throws_error.
Qed.

Lemma readRecipe_throws_error (response : Response) :
  throws_error (readRecipe P response).
Proof.
  unfold readRecipe.
  apply bind_throws_error; [apply run_throws_error|]. intros res.
  apply bind_throws_error.
  { unfold text_path. apply bind_throws_error;
      [apply get_prop_throws_error | intros c; exact I]. }
  intros t. destruct (negb (truthy t)).
  - apply bind_throws_error; [apply get_prop_throws_error|]. intros e.
    apply bind_throws_error; [apply ToString_throws_error | intros m; exact I].
  - apply bind_throws_error; [apply text_of_throws_error|]. intros jsonString.
    apply bind_throws_error; [apply ToString_throws_error|]. intros str.
    apply bind_throws_error; [apply run_throws_error|]. intros parsed.
    apply check_core_fields_throws_error.
Qed.

(** What [readRecipe] hands to [setRecipe] is the parsed text itself, and
    it has a truthy [recipeName] and an array for [ingredients]. *)
Lemma readRecipe_ok (response : Response) (p : jsval) :
  readRecipe P response = Ok p ->
  truthy (read_prop p "recipeName") = true
  /\ isArray (read_prop p "ingredients") = true
  /\ exists res str,
      json response = Returns res
      /\ ToString P (nested_text res) = Ok str
      /\ truthy (nested_text res) = true
      /\ JSON_parse P str = Returns p.
Proof.
  unfold readRecipe.
  destruct (json response) as [res|m] eqn:Hj; cbn [run bind]; [|discriminate].
  destruct (nullish res) eqn:Hn.
  - destruct (text_path_nullish res Hn) as [-> _]. discriminate.
  - rewrite (text_path_non_nullish res Hn). cbn [bind].
    destruct (truthy (nested_text res)) eqn:Ht; cbn [negb].
    + rewrite (text_of_nested res Ht). cbn [bind].
      destruct (ToString P (nested_text res)) as [str|e] eqn:Hs;
        cbn [bind]; [|discriminate].
      destruct (JSON_parse P str) as [parsed|m] eqn:Hp;
        cbn [run bind]; [|discriminate].
      intros H. apply check_core_fields_ok in H. destruct H as [-> [H1 H2]].
      repeat split; try assumption.
      exists res, str. auto.
    + rewrite (get_prop_non_nullish P res _ Hn). cbn [bind].
      destruct (ToString P _); discriminate.
Qed.

(** Without a truthy text at the nested path, [readRecipe] throws, whatever
    [JSON.parse] would do. *)
Lemma readRecipe_no_text (response : Response) (res : jsval) :
  json response = Returns res ->
  truthy (nested_text res) = false ->
  (exists m, readRecipe P response = Throw (JsError m))
  /\ (forall parse, readRecipe (with_parse P parse) response
                    = readRecipe P response)
  /\ (nullish res = false ->
      truthy (opt_prop (read_prop res "error") "message") = false ->
      readRecipe P response
      = Throw (JsError "Received an empty or malformed response from the AI.")).
Proof.
  intros Hj Ht. unfold readRecipe. rewrite Hj. cbn [run bind].
  destruct (nullish res) eqn:Hn.
  - unfold text_path, get_prop. cbn [with_parse TypeError_read].
    rewrite Hn. cbn [bind]. repeat split; eauto. discriminate.
  - assert (Hw : forall parse,
               text_path (with_parse P parse) res = Ok (nested_text res))
      by (intros parse; now apply text_path_non_nullish).
    rewrite (text_path_non_nullish res Hn). cbn [bind].
    rewrite Ht. cbn [negb].
    rewrite (get_prop_non_nullish P res _ Hn). cbn [bind].
    split; [|split].
    + pose proof (ToString_throws_error P
        (if truthy (opt_prop (read_prop res "error") "message")
         then opt_prop (read_prop res "error") "message"
         else JStr "Received an empty or malformed response from the AI."))
        as Hs.
      destruct (ToString P _) as [s|[m|]]; cbn [bind]; eauto.
      destruct Hs.
    + intros parse. rewrite Hw. cbn [bind]. rewrite Ht. cbn [negb].
      rewrite (get_prop_non_nullish _ res _ Hn). cbn [bind].
      reflexivity.
    + intros _ Hm. rewrite Hm. reflexivity.
Qed.

End Reading.

(** ** One run of [generateRecipe], and the component between events *)

Section ControllerFacts.

Variable P : Platform.
Variables (apiKey API_URL : string).
Variable fetchWithRetry :
  World -> string -> Options -> result Response * list event.

(** What the two transports have in common: they throw [Error] objects
    only, and they start with a network call. *)
Hypothesis transport_throws_error :
  forall w url options, throws_error (fst (fetchWithRetry w url options)).
Hypothesis transport_calls :
  forall w url options,
    exists post, snd (fetchWithRetry w url options) = EvFetch url options :: post.

Local Abbreviation try_block' := (try_block P apiKey API_URL fetchWithRetry).
Local Abbreviation generate := (generateRecipe P apiKey API_URL fetchWithRetry).

Lemma try_block_throws_error (answers : Answers) (w : World) :
  throws_error (fst (try_block' answers w)).
Proof.
  unfold try_block.
  pose proof (transport_throws_error w (API_URL ++ "?key=" ++ apiKey)
                (request_options answers)) as H.
  destruct (fetchWithRetry w _ _) as [r tr]. cbn [fst] in *.
  apply bind_throws_error; [exact H|].
  intros response. apply readRecipe_throws_error.
Qed.

Lemma try_block_ok (answers : Answers) (w : World) (p : jsval) :
  fst (try_block' answers w) = Ok p ->
  truthy (read_prop p "recipeName") = true
  /\ isArray (read_prop p "ingredients") = true.
Proof.
  unfold try_block.
  destruct (fetchWithRetry w _ _) as [[response|e] tr]; cbn [fst bind];
    [|discriminate].
  intros H. apply readRecipe_ok in H. tauto.
Qed.

Lemma try_block_calls (answers : Answers) (w : World) :
  1 <= calls (snd (try_block' answers w)).
Proof.
  unfold try_block.
  destruct (transport_calls w (API_URL ++ "?key=" ++ apiKey)
              (request_options answers)) as [post H].
  destruct (fetchWithRetry w _ _) as [r tr]. cbn [snd] in *. subst tr.
  unfold calls. simpl. lia.
Qed.

(** The state after the setters that open [generateRecipe]. *)
Lemma begin_state (s : AppState) :
  fst (begin s) = {| recipe := None; isLoading := true; error := None |}.
Proof. reflexivity. Qed.

(** From a Loading state, completion leads to Success or to Failure. *)
Lemma settle_loading (r : result jsval) :
  throws_error r ->
  let s := {| recipe := None; isLoading := true; error := None |} in
  snd (settle P r s) = Ok tt
  /\ ((exists p, r = Ok p /\ view (fst (fst (settle P r s))) = Some (Success p))
      \/ (exists m, r = Throw (JsError m)
          /\ view (fst (fst (settle P r s)))
             = Some (Failure ("Failed to generate recipe: " ++ m
                              ++ ". Please refine your input and try again.")))).
Proof.
  destruct r as [p|[m|]]; simpl; intros H; [| |destruct H].
  - split; [reflexivity|]. left. eauto.
  - split; [reflexivity|]. right. eauto.
Qed.

Lemma generateRecipe_unfold (answers : Answers) (w : World) (s : AppState) :
  generate answers w s =
    (fst (fst (settle P (fst (try_block' answers w)) (fst (begin s)))),
     ([EvSetError None; EvSetIsLoading true; EvSetRecipe None]
        ++ snd (try_block' answers w)
        ++ snd (fst (settle P (fst (try_block' answers w)) (fst (begin s)))))%list,
     snd (settle P (fst (try_block' answers w)) (fst (begin s)))).
Proof.
  unfold generateRecipe. cbn [begin fst].
  destruct (try_block' answers w) as [r tr]. cbn [fst snd].
  now destruct (settle P r _) as [[s2 tr3] c].
Qed.

(** A run ends in Success or in Failure, whatever the state it starts in;
    a recipe it stores passed the check of [readRecipe]. *)
Lemma generateRecipe_completes (answers : Answers) (w : World) (s : AppState) :
  snd (generate answers w s) = Ok tt
  /\ ((exists p,
         fst (try_block' answers w) = Ok p
         /\ view (fst (fst (generate answers w s))) = Some (Success p))
      \/ (exists m,
            fst (try_block' answers w) = Throw (JsError m)
            /\ view (fst (fst (generate answers w s)))
               = Some (Failure ("Failed to generate recipe: " ++ m
                                ++ ". Please refine your input and try again.")))).
Proof.
  rewrite generateRecipe_unfold. cbn [fst snd]. rewrite begin_state.
  apply settle_loading. apply try_block_throws_error.
Qed.

(** The clearing setters come first, the network calls after them. *)
Lemma generateRecipe_clears_first (answers : Answers) (w : World) (s : AppState) :
  exists rest,
    snd (fst (generate answers w s))
    = ([EvSetError None; EvSetIsLoading true; EvSetRecipe None] ++ rest)%list
    /\ 1 <= calls rest.
Proof.
  rewrite generateRecipe_unfold. cbn [fst snd].
  eexists. split; [reflexivity|].
  rewrite calls_app. pose proof (try_block_calls answers w). lia.
Qed.

Lemma ui_step_single_flight (x y : Sys) :
  single_flight x ->
  ui_step P apiKey API_URL fetchWithRetry x y ->
  single_flight y.
Proof.
  intros Hx Hstep. destruct Hstep as [x y Hdis Hcall | x y Hcomp].
  - destruct Hcall as [s n]. cbn [slots] in Hdis.
    destruct Hx as [[Hn _] | [_ Hs]].
    + right. cbn in Hn. subst n. split; reflexivity.
    + cbn [slots] in Hs. subst s. discriminate Hdis.
  - destruct Hcomp as [s n answers w].
    destruct Hx as [[Hn _] | [Hn Hs]]; [discriminate Hn|].
    cbn [in_flight slots] in *. injection Hn as ->. subst s.
    left. cbn [in_flight slots].
    destruct (settle_loading _ (try_block_throws_error answers w))
      as [_ [[p [_ Hv]] | [m [_ Hv]]]];
      (split; [reflexivity|]; split; [|eauto]).
    + destruct (fst (try_block' answers w)) as [q|[m|]]; reflexivity.
    + destruct (fst (try_block' answers w)) as [q|[m'|]]; reflexivity.
Qed.

Lemma ui_reachable_single_flight (x : Sys) :
  ui_reachable P apiKey API_URL fetchWithRetry x -> single_flight x.
Proof.
  induction 1 as [|x y _ IH Hstep].
  - left. repeat split. exists Idle. reflexivity.
  - exact (ui_step_single_flight x y IH Hstep).
Qed.

End ControllerFacts.

(** ** The two transports, as [generateRecipe] calls them *)

Lemma chefApp_loop_throws_error
  (P : Platform) (w : World) (url : string) (options : Options)
  (maxRetries k : nat) :
  forall (i : nat) (m : string),
    throws_error
      (fst (ChefApp.retry_loop P w url options maxRetries k i (JsError m))).
Proof.
  induction k as [|k IH]; intros i m; [exact I|].
  destruct (succeeds (net w i)) eqn:Hs.
  - destruct (chefApp_attempt_succeeds _ Hs) as [r [_ Hr]].
    rewrite (chefApp_loop_success P w url options maxRetries k i _ r Hr).
    exact I.
  - destruct (chefApp_attempt_fails _ Hs) as [m' Hm].
    rewrite (chefApp_loop_fail P w url options maxRetries k i _ m' Hm).
    apply IH.
Qed.

Lemma part000_loop_throws_error
  (P : Platform) (w : World) (url : string) (options : Options)
  (maxRetries k : nat) :
  forall (i : nat) (m : string),
    throws_error
      (fst (Part000.retry_loop P w url options maxRetries k i (JsError m))).
Proof.
  induction k as [|k IH]; intros i m; [exact I|].
  destruct (succeeds (net w i)) eqn:Hs.
  - destruct (part000_attempt_succeeds P _ Hs) as [r [_ Hr]].
    rewrite (part000_loop_success P w url options maxRetries k i _ r Hr).
    exact I.
  - destruct (part000_attempt_fails P _ Hs) as [m' Hm].
    rewrite (part000_loop_fail P w url options maxRetries k i _ m' Hm).
    apply IH.
Qed.

Lemma chefApp_transport_throws_error
  (P : Platform) (w : World) (url : string) (options : Options) :
  throws_error (fst (ChefApp.transport P w url options)).
Proof.
  unfold ChefApp.transport, ChefApp.fetchWithRetry, ChefApp.default_maxRetries.
  destruct (succeeds (net w 0)) eqn:Hs.
  - destruct (chefApp_attempt_succeeds _ Hs) as [r [_ Hr]].
    rewrite (chefApp_loop_success P w url options 5 4 0 _ r Hr). exact I.
  - destruct (chefApp_attempt_fails _ Hs) as [m Hm].
    rewrite (chefApp_loop_fail P w url options 5 4 0 _ m Hm).
    apply chefApp_loop_throws_error.
Qed.

Lemma part000_transport_throws_error
  (P : Platform) (w : World) (url : string) (options : Options) :
  throws_error (fst (Part000.transport P w url options)).
Proof.
  unfold Part000.transport, Part000.fetchWithRetry, Part000.default_maxRetries.
  destruct (succeeds (net w 0)) eqn:Hs.
  - destruct (part000_attempt_succeeds P _ Hs) as [r [_ Hr]].
    rewrite (part000_loop_success P w url options 3 2 0 _ r Hr). exact I.
  - destruct (part000_attempt_fails P _ Hs) as [m Hm].
    rewrite (part000_loop_fail P w url options 3 2 0 _ m Hm).
    apply part000_loop_throws_error.
Qed.

Lemma chefApp_transport_calls
  (P : Platform) (w : World) (url : string) (options : Options) :
  exists post, snd (ChefApp.transport P w url options) = EvFetch url options :: post.
Proof. apply chefApp_loop_head. Qed.

Lemma part000_transport_calls
  (P : Platform) (w : World) (url : string) (options : Options) :
  exists post, snd (Part000.transport P w url options) = EvFetch url options :: post.
Proof. apply part000_loop_head. Qed.

Lemma view_not_both (s : AppState) (v : RequestState) :
  view s = Some v -> recipe s = None \/ error s = None.
Proof.
  unfold view. destruct (recipe s), (error s); auto.
  destruct (isLoading s); discriminate.
Qed.

Lemma view_failure (s : AppState) (v : RequestState) (m : string) :
  view s = Some v -> error s = Some m -> v = Failure m.
Proof.
  unfold view. intros Hv Hm. rewrite Hm in Hv.
  destruct (recipe s), (isLoading s); congruence.
Qed.

Lemma generateRecipe_after_response
  (P : Platform) (apiKey API_URL : string)
  (fetchWithRetry : World -> string -> Options -> result Response * list event)
  (answers : Answers) (w : World) (s : AppState)
  (response : Response) (m : string) :
  fst (fetchWithRetry w (API_URL ++ "?key=" ++ apiKey) (request_options answers))
  = Ok response ->
  readRecipe P response = Throw (JsError m) ->
  view (fst (fst (generateRecipe P apiKey API_URL fetchWithRetry answers w s)))
  = Some (Failure ("Failed to generate recipe: " ++ m
                   ++ ". Please refine your input and try again.")).
Proof.
  intros Hf Hr. unfold generateRecipe, try_block. cbn [begin].
  destruct (fetchWithRetry w _ _) as [r tr]. cbn [fst] in Hf. subst r.
  cbn [bind]. rewrite Hr. reflexivity.
Qed.

(** ** The validator *)



(** C8: when the envelope of the response has no (truthy) text at the path
    [candidates[0].content.parts[0].text], [readRecipe] throws an error,
    the same whatever [JSON.parse] does (the text is never parsed); the
    message is the one about an empty or malformed response unless the
    envelope carries an [error.message]; and the run of [generateRecipe]
    ends in Failure. *)
Theorem missing_text_is_malformed
  (P : Platform) (response : Response) (res : jsval) :
  json response = Returns res ->
  truthy (nested_text res) = false ->
  (exists m, readRecipe P response = Throw (JsError m))
  /\ (forall parse,
        readRecipe (with_parse P parse) response = readRecipe P response)
  /\ (nullish res = false ->
      truthy (opt_prop (read_prop res "error") "message") = false ->
      readRecipe P response
      = Throw (JsError "Received an empty or malformed response from the AI."))
  /\ (forall apiKey API_URL fetchWithRetry answers w s,
        fst (fetchWithRetry w (API_URL ++ "?key=" ++ apiKey)
               (request_options answers)) = Ok response ->
        exists m,
          view (fst (fst (generateRecipe P apiKey API_URL fetchWithRetry
                            answers w s)))
          = Some (Failure m)).
Proof.
  intros Hj Ht.
  destruct (readRecipe_no_text P response res Hj Ht) as [[m Hm] [Hp Hd]].
  repeat split; eauto.
  intros apiKey API_URL fetchWithRetry answers w s Hf.
  eexists. exact (generateRecipe_after_response P apiKey API_URL
                    fetchWithRetry answers w s response m Hf Hm).
Qed.

Lemma missing_text_is_malformed_witness :
  readRecipe Engine.platform
    {| status := 200; text := Returns "{}"; json := Returns (JObj []) |}
  = Throw (JsError "Received an empty or malformed response from the AI.").
Proof.
  refine (proj1 (proj2 (proj2 (missing_text_is_malformed Engine.platform
            {| status := 200; text := Returns "{}"; json := Returns (JObj []) |}
            (JObj []) _ _))) _ _); reflexivity.
Defined.

(** ** The state of the component *)

(** C4, as the specification states it, fails: [generateRecipe] has no
    guard.  Called in a Loading state it makes a network call all the
    same, and two calls in a row leave two runs in flight. *)
Lemma no_loading_guard :
  let s := {| recipe := None; isLoading := true; error := None |} in
  let w := always (Returns (generated (dq "{'recipeName':'x','ingredients':[]}"))) in
  isLoading s = true
  /\ calls (snd (fst (ChefApp.generateRecipe Engine.platform "k" blank_form w s))) = 1
  /\ (exists y z, call initial_sys y /\ isLoading (slots y) = true
                  /\ call y z /\ in_flight z = 2)
  /\ ~ loading_guard (ChefApp.generateRecipe Engine.platform "k").
Proof.
  cbv zeta. split; [reflexivity|]. split; [vm_compute; reflexivity|]. split.
  - eexists. eexists. split; [apply call_generateRecipe|].
    split; [reflexivity|]. split; [apply call_generateRecipe | reflexivity].
  - intros H.
    pose proof (H blank_form
                  (always (Returns (generated (dq "{'recipeName':'x','ingredients':[]}"))))
                  {| recipe := None; isLoading := true; error := None |}
                  eq_refl) as Hc.
    vm_compute in Hc. discriminate Hc.
Qed.

(** C4, amended: single flight holds of the component as the page drives
    it, through the submit button that is disabled while [isLoading]: in
    every state reached by submits through the enabled button and by
    completions of runs, at most one run is in flight, and one is in flight
    exactly when the state is Loading. *)
Theorem single_flight_through_button
  (P : Platform) (key apiKey : string) (x : Sys) :
  (ui_reachable P apiKey ChefApp.API_URL (ChefApp.transport P) x
   \/ ui_reachable P apiKey (Part000.API_URL key) (Part000.transport P) x) ->
  in_flight x <= 1
  /\ (in_flight x = 1 <-> isLoading (slots x) = true)
  /\ (in_flight x = 1 <-> submit_disabled (slots x) = true).
Proof.
  intros H.
  assert (Hs : single_flight x).
  { destruct H as [H|H].
    - exact (ui_reachable_single_flight P apiKey _ _
               (chefApp_transport_throws_error P) x H).
    - exact (ui_reachable_single_flight P apiKey _ _
               (part000_transport_throws_error P) x H). }
  unfold submit_disabled.
  destruct Hs as [[Hn [Hl _]] | [Hn Hl]]; rewrite Hn.
  - rewrite Hl. repeat split; try lia; discriminate.
  - rewrite Hl. cbn. repeat split; lia.
Qed.

Lemma single_flight_through_button_witness :
  in_flight {| slots := fst (begin initial_state); in_flight := 1 |} <= 1
  /\ (in_flight {| slots := fst (begin initial_state); in_flight := 1 |} = 1
      <-> isLoading (slots {| slots := fst (begin initial_state); in_flight := 1 |})
          = true)
  /\ (in_flight {| slots := fst (begin initial_state); in_flight := 1 |} = 1
      <-> submit_disabled
            (slots {| slots := fst (begin initial_state); in_flight := 1 |})
          = true).
Proof.
  apply (single_flight_through_button Engine.platform "k" "k").
  left. eapply reach_step; [apply reach_initial|].
  apply step_click; [reflexivity | apply call_generateRecipe].
Defined.

(** C9: a run of [generateRecipe] completes, from whatever state, in
    Success or in Failure, never with both the recipe and the error set;
    and every state that the component reaches displays one of Idle,
    Loading, Success, Failure. *)
Theorem slots_display_one_variant (P : Platform) (key apiKey : string) :
  (forall answers w s,
     let r := ChefApp.generateRecipe P apiKey answers w s in
     snd r = Ok tt
     /\ (recipe (fst (fst r)) = None \/ error (fst (fst r)) = None)
     /\ ((exists p, view (fst (fst r)) = Some (Success p))
         \/ (exists m, view (fst (fst r)) = Some (Failure m))))
  /\
  (forall answers w s,
     let r := Part000.generateRecipe P key apiKey answers w s in
     snd r = Ok tt
     /\ (recipe (fst (fst r)) = None \/ error (fst (fst r)) = None)
     /\ ((exists p, view (fst (fst r)) = Some (Success p))
         \/ (exists m, view (fst (fst r)) = Some (Failure m))))
  /\
  (forall x,
     ui_reachable P apiKey ChefApp.API_URL (ChefApp.transport P) x
     \/ ui_reachable P apiKey (Part000.API_URL key) (Part000.transport P) x ->
     (recipe (slots x) = None \/ error (slots x) = None)
     /\ exists v, view (slots x) = Some v).
Proof.
  split; [|split].
  - intros answers w s r. subst r.
    destruct (generateRecipe_completes P apiKey ChefApp.API_URL
                (ChefApp.transport P) (chefApp_transport_throws_error P)
                answers w s) as [Hc [[p [_ Hv]] | [m [_ Hv]]]];
      (split; [exact Hc|]; split; [exact (view_not_both _ _ Hv)|]); eauto.
  - intros answers w s r. subst r.
    destruct (generateRecipe_completes P apiKey (Part000.API_URL key)
                (Part000.transport P) (part000_transport_throws_error P)
                answers w s) as [Hc [[p [_ Hv]] | [m [_ Hv]]]];
      (split; [exact Hc|]; split; [exact (view_not_both _ _ Hv)|]); eauto.
  - intros x H.
    assert (Hs : single_flight x).
    { destruct H as [H|H].
      - exact (ui_reachable_single_flight P apiKey _ _
                 (chefApp_transport_throws_error P) x H).
      - exact (ui_reachable_single_flight P apiKey _ _
                 (part000_transport_throws_error P) x H). }
    assert (Hv : exists v, view (slots x) = Some v).
    { destruct Hs as [[_ [_ Hv]] | [_ Hl]]; [exact Hv|].
      rewrite Hl. exists Loading. reflexivity. }
    split; [|exact Hv]. destruct Hv as [v Hv]. exact (view_not_both _ _ Hv).
Qed.

Lemma view_failure_state (s : AppState) (m : string) :
  view s = Some (Failure m) ->
  s = {| recipe := None; isLoading := false; error := Some m |}.
Proof.
  destruct s as [[r|] [|] [e|]]; cbn; try discriminate.
  now intros [= ->].
Qed.

(** C10: a run of [generateRecipe] first clears the error and the recipe
    (and sets [isLoading]), and only then makes its network calls; the
    state it ends in does not depend on the state it started in; and when
    the request fails (the [try] block throws, in the transport or in the
    reading of the response), what is thrown is an error with a message
    and the run ends in Failure: no recipe, whatever recipe was shown
    before, [isLoading] false, and the error set to that message between
    "Failed to generate recipe:" and the advice to try again. *)
Theorem submit_clears_previous_result
  (P : Platform) (key apiKey : string) (answers : Answers) (w : World)
  (s : AppState) :
  let clear := [EvSetError None; EvSetIsLoading true; EvSetRecipe None] in
  ((exists rest,
      snd (fst (ChefApp.generateRecipe P apiKey answers w s))
      = (clear ++ rest)%list /\ 1 <= calls rest)
   /\ fst (fst (ChefApp.generateRecipe P apiKey answers w s))
      = fst (fst (ChefApp.generateRecipe P apiKey answers w initial_state))
   /\ (forall m,
         error (fst (fst (ChefApp.generateRecipe P apiKey answers w s))) = Some m ->
         view (fst (fst (ChefApp.generateRecipe P apiKey answers w s)))
         = Some (Failure m))
   /\ (forall e,
         fst (try_block P apiKey ChefApp.API_URL (ChefApp.transport P) answers w)
         = Throw e ->
         exists m,
           e = JsError m
           /\ fst (fst (ChefApp.generateRecipe P apiKey answers w s))
              = {| recipe := None;
                   isLoading := false;
                   error := Some ("Failed to generate recipe: " ++ m
                                  ++ ". Please refine your input and try again.") |}))
  /\
  ((exists rest,
      snd (fst (Part000.generateRecipe P key apiKey answers w s))
      = (clear ++ rest)%list /\ 1 <= calls rest)
   /\ fst (fst (Part000.generateRecipe P key apiKey answers w s))
      = fst (fst (Part000.generateRecipe P key apiKey answers w initial_state))
   /\ (forall m,
         error (fst (fst (Part000.generateRecipe P key apiKey answers w s))) = Some m ->
         view (fst (fst (Part000.generateRecipe P key apiKey answers w s)))
         = Some (Failure m))
   /\ (forall e,
         fst (try_block P apiKey (Part000.API_URL key) (Part000.transport P)
                answers w)
         = Throw e ->
         exists m,
           e = JsError m
           /\ fst (fst (Part000.generateRecipe P key apiKey answers w s))
              = {| recipe := None;
                   isLoading := false;
                   error := Some ("Failed to generate recipe: " ++ m
                                  ++ ". Please refine your input and try again.") |})).
Proof.
  intros clear. subst clear. split.
  - split; [|split; [|split]].
    + exact (generateRecipe_clears_first P apiKey ChefApp.API_URL
               (ChefApp.transport P) (chefApp_transport_calls P) answers w s).
    + unfold ChefApp.generateRecipe. now rewrite !generateRecipe_unfold.
    + intros m Hm.
      destruct (generateRecipe_completes P apiKey ChefApp.API_URL
                  (ChefApp.transport P) (chefApp_transport_throws_error P)
                  answers w s) as [_ [[p [_ Hv]] | [m' [_ Hv]]]];
        unfold ChefApp.generateRecipe in *; rewrite Hv;
        now rewrite (view_failure _ _ _ Hv Hm).
    + intros e He.
      destruct (generateRecipe_completes P apiKey ChefApp.API_URL
                  (ChefApp.transport P) (chefApp_transport_throws_error P)
                  answers w s) as [_ [[p [Hp _]] | [m [Hm Hv]]]].
      * rewrite He in Hp. discriminate Hp.
      * rewrite He in Hm. injection Hm as ->. exists m. split; [reflexivity|].
        exact (view_failure_state _ _ Hv).
  - split; [|split; [|split]].
    + exact (generateRecipe_clears_first P apiKey (Part000.API_URL key)
               (Part000.transport P) (part000_transport_calls P) answers w s).
    + unfold Part000.generateRecipe. now rewrite !generateRecipe_unfold.
    + intros m Hm.
      destruct (generateRecipe_completes P apiKey (Part000.API_URL key)
                  (Part000.transport P) (part000_transport_throws_error P)
                  answers w s) as [_ [[p [_ Hv]] | [m' [_ Hv]]]];
        unfold Part000.generateRecipe in *; rewrite Hv;
        now rewrite (view_failure _ _ _ Hv Hm).
    + intros e He.
      destruct (generateRecipe_completes P apiKey (Part000.API_URL key)
                  (Part000.transport P) (part000_transport_throws_error P)
                  answers w s) as [_ [[p [Hp _]] | [m [Hm Hv]]]].
      * rewrite He in Hp. discriminate Hp.
      * rewrite He in Hm. injection Hm as ->. exists m. split; [reflexivity|].
        exact (view_failure_state _ _ Hv).
Qed.

(** A request that fails after a recipe was shown: the recipe is gone. *)
Lemma submit_clears_previous_result_witness :
  exists m,
    JsError "API call failed after 5 attempts: Failed to fetch" = JsError m
    /\ fst (fst (ChefApp.generateRecipe Engine.platform "k" chicken_rice
                   (always (Raises "Failed to fetch"))
                   {| recipe := Some stir_fry; isLoading := false;
                      error := None |}))
       = {| recipe := None;
            isLoading := false;
            error := Some ("Failed to generate recipe: " ++ m
                           ++ ". Please refine your input and try again.") |}.
Proof.
  refine (proj2 (proj2 (proj2 (proj1
            (submit_clears_previous_result Engine.platform "e" "k"
               chicken_rice (always (Raises "Failed to fetch"))
               {| recipe := Some stir_fry; isLoading := false;
                  error := None |}))))
            (JsError "API call failed after 5 attempts: Failed to fetch") _).
  vm_compute. reflexivity.
Defined.

(** ** The prompt *)

Lemma or_default_not_empty (s d : string) :
  d <> EmptyString -> or_default s d <> EmptyString.
Proof.
  intros Hd. unfold or_default.
  destruct (String.eqb_spec s EmptyString); assumption.
Qed.

Lemma or_default_empty (d : string) : or_default EmptyString d = d.
Proof. reflexivity. Qed.

(** C6: the prompt is the fixed frame with three slots for the optional
    fields; a slot is never empty, and it holds the designated default
    phrase when its field is the empty string. *)
Theorem defaults_fill_empty_fields (answers : Answers) :
  exists s1 s2 s3 : string,
    userQuery answers
    = "Generate a single, unique food recipe based on the following strict criteria:" ++ NL
      ++ "- Main Ingredients: " ++ s1 ++ NL
      ++ "- Dietary Type: "
      ++ (if String.eqb (diet answers) "veg"
          then "Strictly Vegetarian" else "Non-Vegetarian") ++ NL
      ++ "- Cooking Fat: Use " ++ fatType answers ++ " exclusively." ++ NL
      ++ "- Allergies to Avoid: " ++ s2 ++ NL
      ++ "- Special Request/Style: " ++ s3 ++ NL
      ++ "The entire response MUST be a single JSON object conforming to the provided schema. DO NOT include any text outside the JSON structure."
    /\ (s1 <> EmptyString /\ s2 <> EmptyString /\ s3 <> EmptyString)
    /\ (ingredients answers = EmptyString ->
        s1 = "I have no specific ingredients, be creative.")
    /\ (allergies answers = EmptyString -> s2 = "None, ensure safety.")
    /\ (specialRequest answers = EmptyString ->
        s3 = "Make it simple and delicious.")
    /\ contents_text (payload answers) = userQuery answers.
Proof.
  exists (or_default (ingredients answers)
            "I have no specific ingredients, be creative."),
         (or_default (allergies answers) "None, ensure safety."),
         (or_default (specialRequest answers) "Make it simple and delicious.").
  split; [reflexivity|].
  split; [repeat split; apply or_default_not_empty; discriminate|].
  repeat split; intros ->; reflexivity.
Qed.

(** ** The diagnostic message *)

Section Diagnostic.

Variable P : Platform.
Variables (response : Response) (errorText : string).

(** A body that is JSON with a non-empty string at [error.message]. *)
Lemma errorMessage_envelope (errorJson : jsval) (m : string) :
  JSON_parse P errorText = Returns errorJson ->
  read_prop (read_prop errorJson "error") "message" = JStr m ->
  m <> EmptyString ->
  Part000.errorMessage P errorText response = Part000.api_error m response.
Proof.
  intros Hp Hm Hne.
  unfold Part000.errorMessage, Part000.envelope_message.
  rewrite Hp. cbn [run bind].
  assert (Hj : nullish errorJson = false)
    by (destruct errorJson; try reflexivity; discriminate Hm).
  rewrite (get_prop_non_nullish P _ _ Hj). cbn [bind].
  assert (He : truthy (read_prop errorJson "error") = true)
    by (destruct (read_prop errorJson "error"); try reflexivity; discriminate Hm).
  rewrite He, Hm. cbn [truthy andb ToString bind].
  destruct (String.eqb_spec m EmptyString); [contradiction|reflexivity].
Qed.

(** A body that is not JSON. *)
Lemma errorMessage_not_json (e : string) :
  JSON_parse P errorText = Raises e ->
  Part000.errorMessage P errorText response
  = if String.eqb errorText EmptyString
    then Part000.generic_message response
    else Part000.api_error errorText response.
Proof.
  intros Hp. unfold Part000.errorMessage, Part000.envelope_message.
  rewrite Hp. cbn [run bind].
  now destruct (String.eqb errorText EmptyString).
Qed.

(** A body that is JSON, other than [null], without a truthy
    [error.message]. *)
Lemma errorMessage_no_envelope (errorJson : jsval) :
  JSON_parse P errorText = Returns errorJson ->
  nullish errorJson = false ->
  truthy (read_prop errorJson "error")
  && truthy (read_prop (read_prop errorJson "error") "message") = false ->
  Part000.errorMessage P errorText response = Part000.generic_message response.
Proof.
  intros Hp Hj Hm. unfold Part000.errorMessage, Part000.envelope_message.
  rewrite Hp. cbn [run bind].
  rewrite (get_prop_non_nullish P _ _ Hj). cbn [bind].
  now rewrite Hm.
Qed.

End Diagnostic.

(** C7, as the specification states it, fails: for a body that is JSON
    without an error envelope, [part_000] does not fall back to the
    (non-empty) body text but to the generic message; and [chefApp.jsx]
    does not read the body at all. *)
Lemma json_body_without_envelope :
  let r := response_of 500 "{}" in
  let r' := response_of 500 (dq "{'error':{'message':'boom'}}") in
  (ok r = false
   /\ Part000.attempt Engine.platform (Returns r)
      = Throw (JsError "HTTP error! status: 500")
   /\ diagnostic_by_priority Engine.platform "{}" r = "API Error: {} (500)")
  /\ (ok r' = false
      /\ ChefApp.attempt (Returns r') = Throw (JsError "HTTP error! status: 500")
      /\ diagnostic_by_priority Engine.platform
           (dq "{'error':{'message':'boom'}}") r'
         = "API Error: boom (500)").
Proof.
  cbv zeta. repeat split; vm_compute; reflexivity.
Qed.

(** C7, amended: for a response that is not [ok] and whose body reads as
    [errorText], the error that [part_000] throws says: the envelope's
    message, when the body is JSON with a non-empty string at
    [error.message]; the body text, when the body is not JSON and not
    empty; the generic message naming the status, when the body is empty,
    and also when the body is JSON (other than [null]) without a truthy
    [error.message].  [chefApp.jsx] does not read the body: its message is
    the generic one, or the fixed text for status 400. *)
Theorem diagnostic_message
  (P : Platform) (response : Response) (errorText : string) :
  ok response = false ->
  text response = Returns errorText ->
  (exists msg,
     Part000.attempt P (Returns response) = Throw (JsError msg)
     /\ (forall errorJson m,
           JSON_parse P errorText = Returns errorJson ->
           read_prop (read_prop errorJson "error") "message" = JStr m ->
           m <> EmptyString ->
           msg = "API Error: " ++ m ++ " (" ++ show_nat (status response) ++ ")")
     /\ (forall e,
           JSON_parse P errorText = Raises e ->
           errorText <> EmptyString ->
           msg = "API Error: " ++ errorText
                 ++ " (" ++ show_nat (status response) ++ ")")
     /\ (forall e,
           JSON_parse P errorText = Raises e ->
           errorText = EmptyString ->
           msg = "HTTP error! status: " ++ show_nat (status response))
     /\ (forall errorJson,
           JSON_parse P errorText = Returns errorJson ->
           nullish errorJson = false ->
           truthy (read_prop errorJson "error")
           && truthy (read_prop (read_prop errorJson "error") "message") = false ->
           msg = "HTTP error! status: " ++ show_nat (status response)))
  /\ ChefApp.attempt (Returns response)
     = Throw (JsError (if status response =? 400
                       then "Bad Request: Invalid input to the API."
                       else "HTTP error! status: " ++ show_nat (status response))).
Proof.
  intros Hok Ht. split.
  - exists (Part000.errorMessage P errorText response).
    split; [exact (part000_attempt_message P response errorText Hok Ht)|].
    split; [|split; [|split]].
    + intros errorJson m Hp Hm Hne.
      exact (errorMessage_envelope P response errorText errorJson m Hp Hm Hne).
    + intros e Hp Hne. rewrite (errorMessage_not_json P response errorText e Hp).
      destruct (String.eqb_spec errorText EmptyString);
        [contradiction|reflexivity].
    + intros e Hp ->. now rewrite (errorMessage_not_json P response _ e Hp).
    + intros errorJson Hp Hj Hm.
      exact (errorMessage_no_envelope P response errorText errorJson Hp Hj Hm).
  - unfold ChefApp.attempt. cbn [run bind]. rewrite Hok. cbn [negb].
    now destruct (status response =? 400).
Qed.

Lemma diagnostic_message_witness :
  ChefApp.attempt (Returns (response_of 500 "oops"))
  = Throw (JsError (if status (response_of 500 "oops") =? 400
                    then "Bad Request: Invalid input to the API."
                    else "HTTP error! status: "
                         ++ show_nat (status (response_of 500 "oops")))).
Proof.
  refine (proj2 (diagnostic_message Engine.platform (response_of 500 "oops")
                   "oops" _ _)); reflexivity.
Defined.

Example part000_messages :
  Part000.attempt Engine.platform
    (Returns (response_of 429 (dq "{'error':{'message':'quota'}}")))
  = Throw (JsError "API Error: quota (429)")
  /\ Part000.attempt Engine.platform (Returns (response_of 502 "Bad Gateway"))
     = Throw (JsError "API Error: Bad Gateway (502)")
  /\ Part000.attempt Engine.platform (Returns (response_of 500 EmptyString))
     = Throw (JsError "HTTP error! status: 500")
  /\ Part000.attempt Engine.platform (Returns (response_of 500 "null"))
     = Throw (JsError "API Error: null (500)").
Proof. repeat split; vm_compute; reflexivity. Qed.

(** * Further facts *)

(** ** The timeline of the transport *)

Lemma sum_base_closed (n : nat) : (sum_base n == backoff_base n - 1000)%Q.
Proof.
  induction n as [|n IH]; [reflexivity|].
  cbn [sum_base]. rewrite IH.
  assert (E : (backoff_base (S n) == 2 * backoff_base n)%Q).
  { unfold backoff_base.
    rewrite Nat2Z.inj_succ, Z.pow_succ_r by lia.
    rewrite inject_Z_mult. ring. }
  rewrite E. ring.
Qed.

(** The sum of the base delays of the iterations [0 .. n-1]. *)
Lemma sum_backoff_base (n : nat) :
  (fold_right Qplus 0 (map backoff_base (seq 0 n)) == sum_base n)%Q.
Proof.
  induction n as [|n IH]; [reflexivity|].
  rewrite seq_S, map_app, fold_right_app. cbn [map fold_right Nat.add].
  cbn [sum_base]. rewrite <- IH.
  generalize (map backoff_base (seq 0 n)) as l.
  induction l as [|x l IHl]; cbn [fold_right]; [ring|].
  rewrite IHl. ring.
Qed.

Section ChefAppTimeline.

Variable P : Platform.
Variable w : World.
Variables (url : string) (options : Options) (maxRetries : nat).

Local Abbreviation loop := (ChefApp.retry_loop P w url options maxRetries).
Local Abbreviation wait i := (backoff_base i + random w i * 1000)%Q.

Lemma chefApp_attempt_ok (r : Response) :
  ok r = true -> ChefApp.attempt (Returns r) = Ok r.
Proof.
  intros Hok. unfold ChefApp.attempt. cbn [run bind]. now rewrite Hok.
Qed.

(** The first [ok] response ends the loop. *)
Lemma chefApp_loop_recovers (j : nat) :
  forall (k i : nat) (e : thrown) (r : Response),
    (forall t, i <= t < i + j -> succeeds (net w t) = false) ->
    net w (i + j) = Returns r -> ok r = true ->
    j < k -> i + k = maxRetries ->
    fst (loop k i e) = Ok r
    /\ calls (snd (loop k i e)) = S j
    /\ sleeps (snd (loop k i e)) = map (fun t => wait t) (seq i j).
Proof.
  induction j as [|j IH]; intros k i e r Hfail Hnet Hok Hk Hmax;
    (destruct k as [|k]; [lia|]).
  - rewrite Nat.add_0_r in Hnet.
    rewrite (chefApp_loop_success P w url options maxRetries k i e r);
      [repeat split | rewrite Hnet; now apply chefApp_attempt_ok].
  - destruct (chefApp_attempt_fails (net w i)) as [m Hm]; [apply Hfail; lia|].
    rewrite (chefApp_loop_fail P w url options maxRetries k i e m Hm).
    cbn [fst snd].
    replace (i <? maxRetries - 1) with true by (symmetry; apply Nat.ltb_lt; lia).
    destruct (IH k (S i) (JsError m) r) as [Hr [Hc Hs]];
      [intros t Ht; apply Hfail; lia
      | now replace (S i + j) with (i + S j) by lia
      | exact Hok | lia | lia |].
    repeat split.
    + exact Hr.
    + unfold calls in *. simpl. now rewrite Hc.
    + simpl. now rewrite Hs.
Qed.

(** Whatever the network does: at most [k] calls, one wait fewer than
    calls, and a response is returned only if it is [ok]. *)
Lemma chefApp_loop_bounds (k : nat) :
  forall (i : nat) (e : thrown),
    i + k = maxRetries ->
    calls (snd (loop k i e)) <= k
    /\ (1 <= k -> S (List.length (sleeps (snd (loop k i e))))
                  = calls (snd (loop k i e)))
    /\ (forall r, fst (loop k i e) = Ok r -> ok r = true).
Proof.
  induction k as [|k IH]; intros i e Hmax.
  - cbn. repeat split; try lia.
    intros r. destruct (message_of P e); discriminate.
  - destruct (succeeds (net w i)) eqn:Hs.
    + destruct (chefApp_attempt_succeeds _ Hs) as [r [Hr Ha]].
      rewrite (chefApp_loop_success P w url options maxRetries k i e r Ha).
      cbn. repeat split; try lia.
      intros r' [= <-]. rewrite Hr in Hs. exact Hs.
    + destruct (chefApp_attempt_fails _ Hs) as [m Hm].
      rewrite (chefApp_loop_fail P w url options maxRetries k i e m Hm).
      cbn [fst snd].
      destruct (IH (S i) (JsError m)) as [Hc [Hl Hok]]; [lia|].
      destruct k as [|k].
      * replace (i <? maxRetries - 1) with false
          by (symmetry; apply Nat.ltb_ge; lia).
        cbn. repeat split; try lia. intros r. discriminate.
      * replace (i <? maxRetries - 1) with true
          by (symmetry; apply Nat.ltb_lt; lia).
        specialize (Hl ltac:(lia)).
        remember (loop (S k) (S i) (JsError m)) as rest eqn:Hrest.
        clear Hrest. destruct rest as [res tr]. cbn [fst snd] in *.
        change (EvFetch url options :: [EvSleep (wait i)] ++ tr)%list
          with ([EvFetch url options] ++ [EvSleep (wait i)] ++ tr)%list.
        rewrite !calls_app, !sleeps_app, !length_app.
        change (calls [EvFetch url options]) with 1.
        change (calls [EvSleep (wait i)]) with 0.
        cbn [sleeps List.length].
        repeat split; [lia | intros _; lia | exact Hok].
Qed.

(** When every attempt fails, each but the last is followed by its wait. *)
Lemma chefApp_loop_exhausted_sleeps (k : nat) :
  forall (i : nat) (e : thrown),
    (forall t, i <= t < i + k -> succeeds (net w t) = false) ->
    i + k = maxRetries ->
    sleeps (snd (loop k i e)) = map (fun t => wait t) (seq i (k - 1)).
Proof.
  induction k as [|k IH]; intros i e Hfail Hmax; [reflexivity|].
  destruct (chefApp_attempt_fails (net w i)) as [m Hm]; [apply Hfail; lia|].
  rewrite (chefApp_loop_fail P w url options maxRetries k i e m Hm).
  cbn [snd sleeps].
  rewrite sleeps_app.
  rewrite (IH (S i) (JsError m)); [|intros t Ht; apply Hfail; lia | lia].
  destruct k as [|k].
  - replace (i <? maxRetries - 1) with false
      by (symmetry; apply Nat.ltb_ge; lia).
    reflexivity.
  - replace (i <? maxRetries - 1) with true
      by (symmetry; apply Nat.ltb_lt; lia).
    replace (S (S k) - 1) with (S k) by lia.
    replace (S k - 1) with k by lia.
    reflexivity.
Qed.

End ChefAppTimeline.

Section Part000Timeline.

Variable P : Platform.
Variable w : World.
Variables (url : string) (options : Options) (maxRetries : nat).

Local Abbreviation loop := (Part000.retry_loop P w url options maxRetries).

Lemma part000_attempt_ok (r : Response) :
  ok r = true -> Part000.attempt P (Returns r) = Ok r.
Proof.
  intros Hok. unfold Part000.attempt. cbn [run bind]. now rewrite Hok.
Qed.

Lemma part000_loop_recovers (j : nat) :
  forall (k i : nat) (e : thrown) (r : Response),
    (forall t, i <= t < i + j -> succeeds (net w t) = false) ->
    net w (i + j) = Returns r -> ok r = true ->
    j < k -> i + k = maxRetries ->
    fst (loop k i e) = Ok r
    /\ calls (snd (loop k i e)) = S j
    /\ sleeps (snd (loop k i e)) = map backoff_base (seq i j).
Proof.
  induction j as [|j IH]; intros k i e r Hfail Hnet Hok Hk Hmax;
    (destruct k as [|k]; [lia|]).
  - rewrite Nat.add_0_r in Hnet.
    rewrite (part000_loop_success P w url options maxRetries k i e r);
      [repeat split | rewrite Hnet; now apply part000_attempt_ok].
  - destruct (part000_attempt_fails P (net w i)) as [m Hm];
      [apply Hfail; lia|].
    rewrite (part000_loop_fail P w url options maxRetries k i e m Hm).
    cbn [fst snd].
    replace (i <? maxRetries - 1) with true by (symmetry; apply Nat.ltb_lt; lia).
    destruct (IH k (S i) (JsError m) r) as [Hr [Hc Hs]];
      [intros t Ht; apply Hfail; lia
      | now replace (S i + j) with (i + S j) by lia
      | exact Hok | lia | lia |].
    repeat split.
    + exact Hr.
    + unfold calls in *. simpl. now rewrite Hc.
    + simpl. now rewrite Hs.
Qed.

Lemma part000_loop_bounds (k : nat) :
  forall (i : nat) (e : thrown),
    i + k = maxRetries ->
    calls (snd (loop k i e)) <= k
    /\ (1 <= k -> S (List.length (sleeps (snd (loop k i e))))
                  = calls (snd (loop k i e)))
    /\ (forall r, fst (loop k i e) = Ok r -> ok r = true).
Proof.
  induction k as [|k IH]; intros i e Hmax.
  - cbn. repeat split; try lia. intros r. discriminate.
  - destruct (succeeds (net w i)) eqn:Hs.
    + destruct (part000_attempt_succeeds P _ Hs) as [r [Hr Ha]].
      rewrite (part000_loop_success P w url options maxRetries k i e r Ha).
      cbn. repeat split; try lia.
      intros r' [= <-]. rewrite Hr in Hs. exact Hs.
    + destruct (part000_attempt_fails P _ Hs) as [m Hm].
      rewrite (part000_loop_fail P w url options maxRetries k i e m Hm).
      cbn [fst snd].
      destruct (IH (S i) (JsError m)) as [Hc [Hl Hok]]; [lia|].
      destruct k as [|k].
      * replace (i <? maxRetries - 1) with false
          by (symmetry; apply Nat.ltb_ge; lia).
        cbn. repeat split; try lia. intros r. discriminate.
      * replace (i <? maxRetries - 1) with true
          by (symmetry; apply Nat.ltb_lt; lia).
        specialize (Hl ltac:(lia)).
        remember (loop (S k) (S i) (JsError m)) as rest eqn:Hrest.
        clear Hrest. destruct rest as [res tr]. cbn [fst snd] in *.
        change (EvFetch url options :: ?a :: [EvSleep (backoff_base i)] ++ tr)%list
          with ([EvFetch url options; a] ++ [EvSleep (backoff_base i)] ++ tr)%list.
        rewrite !calls_app, !sleeps_app, !length_app.
        cbn [sleeps List.length].
        change (calls [EvFetch url options; ?a]) with 1.
        change (calls [EvSleep (backoff_base i)]) with 0.
        repeat split; [lia | intros _; lia | exact Hok].
Qed.

Lemma part000_loop_exhausted_sleeps (k : nat) :
  forall (i : nat) (e : thrown),
    (forall t, i <= t < i + k -> succeeds (net w t) = false) ->
    i + k = maxRetries ->
    sleeps (snd (loop k i e)) = map backoff_base (seq i (k - 1)).
Proof.
  induction k as [|k IH]; intros i e Hfail Hmax; [reflexivity|].
  destruct (part000_attempt_fails P (net w i)) as [m Hm]; [apply Hfail; lia|].
  rewrite (part000_loop_fail P w url options maxRetries k i e m Hm).
  cbn [snd sleeps].
  rewrite sleeps_app.
  rewrite (IH (S i) (JsError m)); [|intros t Ht; apply Hfail; lia | lia].
  destruct k as [|k].
  - replace (i <? maxRetries - 1) with false
      by (symmetry; apply Nat.ltb_ge; lia).
    reflexivity.
  - replace (i <? maxRetries - 1) with true
      by (symmetry; apply Nat.ltb_lt; lia).
    replace (S (S k) - 1) with (S k) by lia.
    replace (S k - 1) with k by lia.
    reflexivity.
Qed.

End Part000Timeline.

(** The jitter adds between nothing and a second to each wait. *)
Lemma jitter_sum_bounds (w : World) (l : list nat) :
  random_in_range w ->
  (fold_right Qplus 0 (map backoff_base l)
   <= fold_right Qplus 0
        (map (fun t => backoff_base t + random w t * 1000) l))%Q
  /\ (fold_right Qplus 0
        (map (fun t => backoff_base t + random w t * 1000) l)
      <= fold_right Qplus 0 (map backoff_base l)
         + inject_Z (Z.of_nat (List.length l)) * 1000)%Q.
Proof.
  intros Hrnd. induction l as [|t l [IH1 IH2]].
  - cbn. split; discriminate.
  - cbn [map fold_right List.length]. destruct (Hrnd t) as [H0 H1].
    assert (Ha : (0 <= random w t * 1000)%Q)
      by (apply Qmult_le_0_compat; [exact H0 | discriminate]).
    assert (Hb : (random w t * 1000 <= 1000)%Q).
    { setoid_replace 1000%Q with (1 * 1000)%Q at 2 by reflexivity.
      apply Qmult_le_compat_r; [apply Qlt_le_weak; exact H1 | discriminate]. }
    rewrite Nat2Z.inj_succ. unfold Z.succ. rewrite inject_Z_plus.
    split.
    + apply Qplus_le_compat; [|exact IH1].
      rewrite <- (Qplus_0_r (backoff_base t)) at 1.
      apply Qplus_le_r. exact Ha.
    + setoid_replace
        (backoff_base t + fold_right Qplus 0 (map backoff_base l)
         + (inject_Z (Z.of_nat (List.length l)) + inject_Z 1) * 1000)%Q
        with ((backoff_base t + 1000)
              + (fold_right Qplus 0 (map backoff_base l)
                 + inject_Z (Z.of_nat (List.length l)) * 1000))%Q
        by (change (inject_Z 1) with 1%Q; ring).
      apply Qplus_le_compat; [|exact IH2].
      apply Qplus_le_r. exact Hb.
Qed.

(** X1: the first [ok] response within the budget is what the transport
    returns, after one call per attempt made and one wait per failed
    attempt; in [part_000] the waits of a recovery at attempt [j] add up
    to [(2^j - 1) * 1000] milliseconds. *)
Theorem transport_recovers
  (P : Platform) (w : World) (url : string) (options : Options)
  (maxRetries j : nat) (r : Response) :
  j < maxRetries ->
  (forall t, t < j -> succeeds (net w t) = false) ->
  net w j = Returns r ->
  ok r = true ->
  (fst (ChefApp.fetchWithRetry P w url options maxRetries) = Ok r
   /\ calls (snd (ChefApp.fetchWithRetry P w url options maxRetries)) = S j
   /\ sleeps (snd (ChefApp.fetchWithRetry P w url options maxRetries))
      = map (fun t => (backoff_base t + random w t * 1000)%Q) (seq 0 j))
  /\
  (fst (Part000.fetchWithRetry P w url options maxRetries) = Ok r
   /\ calls (snd (Part000.fetchWithRetry P w url options maxRetries)) = S j
   /\ sleeps (snd (Part000.fetchWithRetry P w url options maxRetries))
      = map backoff_base (seq 0 j)
   /\ (total_wait (snd (Part000.fetchWithRetry P w url options maxRetries))
       == backoff_base j - 1000)%Q).
Proof.
  intros Hj Hfail Hnet Hok. split.
  - apply (chefApp_loop_recovers P w url options maxRetries j maxRetries 0
             JsUndefined r); try assumption; try lia.
    intros t Ht. apply Hfail. lia.
  - destruct (part000_loop_recovers P w url options maxRetries j maxRetries 0
                JsUndefined r) as [Hr [Hc Hs]]; try assumption; try lia.
    { intros t Ht. apply Hfail. lia. }
    unfold Part000.fetchWithRetry. repeat split; try assumption.
    unfold total_wait. rewrite Hs.
    rewrite sum_backoff_base. apply sum_base_closed.
Qed.

Lemma transport_recovers_witness :
  fst (ChefApp.fetchWithRetry Engine.platform
         (answering [Raises "Failed to fetch";
                     Returns (response_of 503 EmptyString);
                     Returns (generated "{}")])
         "u" (request_options blank_form) 5)
  = Ok (generated "{}")
  /\ calls (snd (ChefApp.fetchWithRetry Engine.platform
                   (answering [Raises "Failed to fetch";
                               Returns (response_of 503 EmptyString);
                               Returns (generated "{}")])
                   "u" (request_options blank_form) 5)) = 3
  /\ sleeps (snd (ChefApp.fetchWithRetry Engine.platform
                    (answering [Raises "Failed to fetch";
                                Returns (response_of 503 EmptyString);
                                Returns (generated "{}")])
                    "u" (request_options blank_form) 5))
     = map (fun t => (backoff_base t + (1 # 2) * 1000)%Q) (seq 0 2).
Proof.
  refine (proj1 (transport_recovers Engine.platform
            (answering [Raises "Failed to fetch";
                        Returns (response_of 503 EmptyString);
                        Returns (generated "{}")])
            "u" (request_options blank_form) 5 2 (generated "{}") _ _ _ _)).
  - lia.
  - intros [|[|t]] Ht; [reflexivity | reflexivity | lia].
  - reflexivity.
  - reflexivity.
Defined.

(** X2: whatever the network does, the transport makes at most
    [maxRetries] calls, waits between two calls only (one wait fewer than
    calls), and returns a response only if it is [ok]. *)
Theorem transport_bounds
  (P : Platform) (w : World) (url : string) (options : Options)
  (maxRetries : nat) :
  (calls (snd (ChefApp.fetchWithRetry P w url options maxRetries)) <= maxRetries
   /\ (1 <= maxRetries ->
       S (List.length
            (sleeps (snd (ChefApp.fetchWithRetry P w url options maxRetries))))
       = calls (snd (ChefApp.fetchWithRetry P w url options maxRetries)))
   /\ (forall r,
         fst (ChefApp.fetchWithRetry P w url options maxRetries) = Ok r ->
         ok r = true))
  /\
  (calls (snd (Part000.fetchWithRetry P w url options maxRetries)) <= maxRetries
   /\ (1 <= maxRetries ->
       S (List.length
            (sleeps (snd (Part000.fetchWithRetry P w url options maxRetries))))
       = calls (snd (Part000.fetchWithRetry P w url options maxRetries)))
   /\ (forall r,
         fst (Part000.fetchWithRetry P w url options maxRetries) = Ok r ->
         ok r = true)).
Proof.
  split.
  - apply chefApp_loop_bounds. reflexivity.
  - apply part000_loop_bounds. reflexivity.
Qed.

(** X3: a run of the transport in which every attempt fails spends, in its
    waits, [(2^(maxRetries-1) - 1) * 1000] milliseconds in [part_000], and
    between that and [maxRetries - 1] seconds more in [chefApp.jsx]. *)
Theorem exhausted_wait
  (P : Platform) (w : World) (url : string) (options : Options)
  (maxRetries : nat) :
  random_in_range w ->
  1 <= maxRetries ->
  (forall t, t < maxRetries -> succeeds (net w t) = false) ->
  (total_wait (snd (Part000.fetchWithRetry P w url options maxRetries))
   == backoff_base (maxRetries - 1) - 1000)%Q
  /\ (backoff_base (maxRetries - 1) - 1000
      <= total_wait (snd (ChefApp.fetchWithRetry P w url options maxRetries)))%Q
  /\ (total_wait (snd (ChefApp.fetchWithRetry P w url options maxRetries))
      <= backoff_base (maxRetries - 1) - 1000
         + inject_Z (Z.of_nat (maxRetries - 1)) * 1000)%Q.
Proof.
  intros Hrnd H1 Hfail.
  unfold total_wait, ChefApp.fetchWithRetry, Part000.fetchWithRetry.
  rewrite (part000_loop_exhausted_sleeps P w url options maxRetries
             maxRetries 0 JsUndefined)
    by (try reflexivity; intros t Ht; apply Hfail; lia).
  rewrite (chefApp_loop_exhausted_sleeps P w url options maxRetries
             maxRetries 0 JsUndefined)
    by (try reflexivity; intros t Ht; apply Hfail; lia).
  destruct (jitter_sum_bounds w (seq 0 (maxRetries - 1)) Hrnd) as [Hlo Hhi].
  rewrite length_seq in Hhi.
  rewrite sum_backoff_base, sum_base_closed in Hlo, Hhi.
  split; [|split].
  - rewrite sum_backoff_base. apply sum_base_closed.
  - exact Hlo.
  - exact Hhi.
Qed.

Lemma exhausted_wait_witness :
  (total_wait (snd (Part000.fetchWithRetry Engine.platform
                      (always (Raises "Failed to fetch"))
                      "u" (request_options blank_form)
                      Part000.default_maxRetries))
   == backoff_base (Part000.default_maxRetries - 1) - 1000)%Q.
Proof.
  refine (proj1 (exhausted_wait Engine.platform
            (always (Raises "Failed to fetch"))
            "u" (request_options blank_form) Part000.default_maxRetries
            _ _ _)).
  - intros i. split; [discriminate | reflexivity].
  - unfold Part000.default_maxRetries. lia.
  - intros t _. reflexivity.
Defined.

(** With the default budgets: three seconds in [part_000], fifteen to
    nineteen seconds in [chefApp.jsx]. *)
Example default_budget_waits :
  (backoff_base (Part000.default_maxRetries - 1) - 1000 == 3000)%Q
  /\ (backoff_base (ChefApp.default_maxRetries - 1) - 1000 == 15000)%Q
  /\ (backoff_base (ChefApp.default_maxRetries - 1) - 1000
      + inject_Z (Z.of_nat (ChefApp.default_maxRetries - 1)) * 1000 == 19000)%Q.
Proof. repeat split. Qed.

(** ** A run of [generateRecipe], from the network to the state *)

Lemma chefApp_loop_fetches
  (P : Platform) (w : World) (url : string) (options : Options)
  (maxRetries k : nat) :
  forall (i : nat) (e : thrown),
    filter is_fetch (snd (ChefApp.retry_loop P w url options maxRetries k i e))
    = repeat (EvFetch url options)
        (calls (snd (ChefApp.retry_loop P w url options maxRetries k i e))).
Proof.
  induction k as [|k IH]; intros i e; [reflexivity|].
  destruct (succeeds (net w i)) eqn:Hs.
  - destruct (chefApp_attempt_succeeds _ Hs) as [r [_ Hr]].
    rewrite (chefApp_loop_success P w url options maxRetries k i e r Hr).
    reflexivity.
  - destruct (chefApp_attempt_fails _ Hs) as [m Hm].
    rewrite (chefApp_loop_fail P w url options maxRetries k i e m Hm).
    cbn [snd]. unfold calls.
    cbn [filter is_fetch]. rewrite filter_app.
    replace (filter is_fetch
               (if i <? maxRetries - 1
                then [EvSleep (backoff_base i + random w i * 1000)] else []))
      with (@nil event) by (destruct (i <? maxRetries - 1); reflexivity).
    cbn [app List.length repeat]. f_equal. apply IH.
Qed.

Lemma part000_loop_fetches
  (P : Platform) (w : World) (url : string) (options : Options)
  (maxRetries k : nat) :
  forall (i : nat) (e : thrown),
    filter is_fetch (snd (Part000.retry_loop P w url options maxRetries k i e))
    = repeat (EvFetch url options)
        (calls (snd (Part000.retry_loop P w url options maxRetries k i e))).
Proof.
  induction k as [|k IH]; intros i e; [reflexivity|].
  destruct (succeeds (net w i)) eqn:Hs.
  - destruct (part000_attempt_succeeds P _ Hs) as [r [_ Hr]].
    rewrite (part000_loop_success P w url options maxRetries k i e r Hr).
    reflexivity.
  - destruct (part000_attempt_fails P _ Hs) as [m Hm].
    rewrite (part000_loop_fail P w url options maxRetries k i e m Hm).
    cbn [snd]. unfold calls.
    cbn [filter is_fetch]. rewrite filter_app.
    replace (filter is_fetch
               (if i <? maxRetries - 1 then [EvSleep (backoff_base i)] else []))
      with (@nil event) by (destruct (i <? maxRetries - 1); reflexivity).
    cbn [app List.length repeat]. f_equal. apply IH.
Qed.

Section RunFacts.

Variable P : Platform.
Variables (apiKey API_URL : string).
Variable fetchWithRetry :
  World -> string -> Options -> result Response * list event.

Local Abbreviation generate := (generateRecipe P apiKey API_URL fetchWithRetry).

(** The network calls of a run are those of its transport. *)
Lemma generateRecipe_fetches (answers : Answers) (w : World) (s : AppState) :
  filter is_fetch (snd (fst (generate answers w s)))
  = filter is_fetch
      (snd (fetchWithRetry w (API_URL ++ "?key=" ++ apiKey)
              (request_options answers))).
Proof.
  unfold generateRecipe, try_block. cbn [begin].
  destruct (fetchWithRetry w _ _) as [r tr].
  destruct (settle P _ _) as [[s2 tr3] c] eqn:Hsettle. cbn [fst snd].
  rewrite !filter_app. cbn [filter is_fetch app].
  replace (filter is_fetch tr3) with (@nil event);
    [now rewrite app_nil_r|].
  unfold settle in Hsettle.
  destruct (bind r _) as [p|err].
  - injection Hsettle as _ <- _. reflexivity.
  - destruct (message_of P err); injection Hsettle as _ <- _; reflexivity.
Qed.

Lemma generateRecipe_transport_throws
  (answers : Answers) (w : World) (s : AppState) (m : string) :
  fst (fetchWithRetry w (API_URL ++ "?key=" ++ apiKey) (request_options answers))
  = Throw (JsError m) ->
  view (fst (fst (generate answers w s)))
  = Some (Failure ("Failed to generate recipe: " ++ m
                   ++ ". Please refine your input and try again.")).
Proof.
  intros Hf. unfold generateRecipe, try_block. cbn [begin].
  destruct (fetchWithRetry w _ _) as [r tr]. cbn [fst] in Hf. subst r.
  reflexivity.
Qed.

Lemma generateRecipe_response_read
  (answers : Answers) (w : World) (s : AppState)
  (response : Response) (p : jsval) :
  fst (fetchWithRetry w (API_URL ++ "?key=" ++ apiKey) (request_options answers))
  = Ok response ->
  readRecipe P response = Ok p ->
  view (fst (fst (generate answers w s))) = Some (Success p).
Proof.
  intros Hf Hr. unfold generateRecipe, try_block. cbn [begin].
  destruct (fetchWithRetry w _ _) as [r tr]. cbn [fst] in Hf. subst r.
  cbn [bind]. rewrite Hr. reflexivity.
Qed.

End RunFacts.

Lemma generateRecipe_calls
  (P : Platform) (apiKey API_URL : string)
  (fetchWithRetry : World -> string -> Options -> result Response * list event)
  (answers : Answers) (w : World) (s : AppState) :
  calls (snd (fst (generateRecipe P apiKey API_URL fetchWithRetry answers w s)))
  = calls (snd (fetchWithRetry w (API_URL ++ "?key=" ++ apiKey)
                  (request_options answers))).
Proof.
  unfold calls. now rewrite generateRecipe_fetches.
Qed.

(** X4: when the network fails every attempt of the default budget, a
    submit ends in Failure after five calls in [chefApp.jsx] and three in
    [part_000], and the message shown carries that of the last failed
    attempt (behind "API call failed after 5 attempts:" in
    [chefApp.jsx]). *)
Theorem network_down
  (P : Platform) (key apiKey : string) (answers : Answers) (w : World)
  (s : AppState) :
  (forall t, t < 5 -> succeeds (net w t) = false) ->
  (exists m,
     ChefApp.attempt (net w 4) = Throw (JsError m)
     /\ view (fst (fst (ChefApp.generateRecipe P apiKey answers w s)))
        = Some (Failure ("Failed to generate recipe: "
                         ++ "API call failed after 5 attempts: " ++ m
                         ++ ". Please refine your input and try again."))
     /\ calls (snd (fst (ChefApp.generateRecipe P apiKey answers w s))) = 5)
  /\
  (exists m,
     Part000.attempt P (net w 2) = Throw (JsError m)
     /\ view (fst (fst (Part000.generateRecipe P key apiKey answers w s)))
        = Some (Failure ("Failed to generate recipe: " ++ m
                         ++ ". Please refine your input and try again."))
     /\ calls (snd (fst (Part000.generateRecipe P key apiKey answers w s))) = 3).
Proof.
  intros Hfail. split.
  - destruct (chefApp_loop_exhausted P w
                (ChefApp.API_URL ++ "?key=" ++ apiKey)
                (request_options answers) 5 4 0 JsUndefined)
      as [Hc [m [Hm Hr]]]; [intros t Ht; apply Hfail; lia|].
    exists m. split; [exact Hm|]. split.
    + exact (generateRecipe_transport_throws P apiKey ChefApp.API_URL
               (ChefApp.transport P) answers w s _ Hr).
    + unfold ChefApp.generateRecipe. rewrite generateRecipe_calls. exact Hc.
  - destruct (part000_loop_exhausted P w
                (Part000.API_URL key ++ "?key=" ++ apiKey)
                (request_options answers) 3 2 0 JsUndefined)
      as [Hc [m [Hm Hr]]]; [intros t Ht; apply Hfail; lia|].
    exists m. split; [exact Hm|]. split.
    + exact (generateRecipe_transport_throws P apiKey (Part000.API_URL key)
               (Part000.transport P) answers w s _ Hr).
    + unfold Part000.generateRecipe. rewrite generateRecipe_calls. exact Hc.
Qed.

Lemma network_down_witness :
  exists m,
    ChefApp.attempt (net (always (Raises "Failed to fetch")) 4)
    = Throw (JsError m)
    /\ view (fst (fst (ChefApp.generateRecipe Engine.platform "k" blank_form
                         (always (Raises "Failed to fetch")) initial_state)))
       = Some (Failure ("Failed to generate recipe: "
                        ++ "API call failed after 5 attempts: " ++ m
                        ++ ". Please refine your input and try again."))
    /\ calls (snd (fst (ChefApp.generateRecipe Engine.platform "k" blank_form
                          (always (Raises "Failed to fetch")) initial_state)))
       = 5.
Proof.
  refine (proj1 (network_down Engine.platform "e" "k" blank_form
                   (always (Raises "Failed to fetch")) initial_state _)).
  intros t _. reflexivity.
Defined.

(** X5: whatever the network does, a submit makes at least one network call
    and at most five in [chefApp.jsx], three in [part_000], and every call
    of the run is the same request: the URL [API_URL?key=apiKey] and the
    options built from the answers of the submit. *)
Theorem calls_per_submit
  (P : Platform) (key apiKey : string) (answers : Answers) (w : World)
  (s : AppState) :
  (1 <= calls (snd (fst (ChefApp.generateRecipe P apiKey answers w s))) <= 5
   /\ filter is_fetch (snd (fst (ChefApp.generateRecipe P apiKey answers w s)))
      = repeat (EvFetch (ChefApp.API_URL ++ "?key=" ++ apiKey)
                  (request_options answers))
          (calls (snd (fst (ChefApp.generateRecipe P apiKey answers w s)))))
  /\
  (1 <= calls (snd (fst (Part000.generateRecipe P key apiKey answers w s))) <= 3
   /\ filter is_fetch
        (snd (fst (Part000.generateRecipe P key apiKey answers w s)))
      = repeat (EvFetch (Part000.API_URL key ++ "?key=" ++ apiKey)
                  (request_options answers))
          (calls (snd (fst (Part000.generateRecipe P key apiKey answers w s)))))
  /\ method (request_options answers) = "POST"
  /\ contents_text (body (request_options answers)) = userQuery answers.
Proof.
  split; [|split; [|split; reflexivity]].
  - unfold ChefApp.generateRecipe.
    rewrite generateRecipe_fetches, generateRecipe_calls.
    split; [|apply chefApp_loop_fetches].
    destruct (chefApp_transport_calls P w
                (ChefApp.API_URL ++ "?key=" ++ apiKey) (request_options answers))
      as [post Hpost].
    destruct (chefApp_loop_bounds P w
                (ChefApp.API_URL ++ "?key=" ++ apiKey) (request_options answers)
                5 5 0 JsUndefined eq_refl) as [Hle _].
    unfold ChefApp.transport, ChefApp.fetchWithRetry,
      ChefApp.default_maxRetries in *.
    split; [|exact Hle].
    rewrite Hpost. unfold calls. cbn. lia.
  - unfold Part000.generateRecipe.
    rewrite generateRecipe_fetches, generateRecipe_calls.
    split; [|apply part000_loop_fetches].
    destruct (part000_transport_calls P w
                (Part000.API_URL key ++ "?key=" ++ apiKey)
                (request_options answers)) as [post Hpost].
    destruct (part000_loop_bounds P w
                (Part000.API_URL key ++ "?key=" ++ apiKey)
                (request_options answers) 3 3 0 JsUndefined eq_refl)
      as [Hle _].
    unfold Part000.transport, Part000.fetchWithRetry,
      Part000.default_maxRetries in *.
    split; [|exact Hle].
    rewrite Hpost. unfold calls. cbn. lia.
Qed.

(** X6: the state in which a submit ends is decided by the first [ok]
    response within the budget alone: Success with the recipe read out of
    it, or Failure with the message of what reading it throws; the failed
    attempts before it leave nothing in the state. *)
Theorem first_ok_response_decides
  (P : Platform) (key apiKey : string) (answers : Answers) (w : World)
  (s : AppState) (j : nat) (r : Response) :
  (forall t, t < j -> succeeds (net w t) = false) ->
  net w j = Returns r ->
  ok r = true ->
  (j < 5 ->
   (forall p, readRecipe P r = Ok p ->
      view (fst (fst (ChefApp.generateRecipe P apiKey answers w s)))
      = Some (Success p))
   /\ (forall m, readRecipe P r = Throw (JsError m) ->
         view (fst (fst (ChefApp.generateRecipe P apiKey answers w s)))
         = Some (Failure ("Failed to generate recipe: " ++ m
                          ++ ". Please refine your input and try again."))))
  /\
  (j < 3 ->
   (forall p, readRecipe P r = Ok p ->
      view (fst (fst (Part000.generateRecipe P key apiKey answers w s)))
      = Some (Success p))
   /\ (forall m, readRecipe P r = Throw (JsError m) ->
         view (fst (fst (Part000.generateRecipe P key apiKey answers w s)))
         = Some (Failure ("Failed to generate recipe: " ++ m
                          ++ ". Please refine your input and try again.")))).
Proof.
  intros Hfail Hnet Hok. split; intros Hj.
  - destruct (chefApp_loop_recovers P w (ChefApp.API_URL ++ "?key=" ++ apiKey)
                (request_options answers) 5 j 5 0 JsUndefined r)
      as [Hr _]; try assumption; try lia.
    { intros t Ht. apply Hfail. lia. }
    split.
    + intros p Hp.
      exact (generateRecipe_response_read P apiKey ChefApp.API_URL
               (ChefApp.transport P) answers w s r p Hr Hp).
    + intros m Hm.
      exact (generateRecipe_after_response P apiKey ChefApp.API_URL
               (ChefApp.transport P) answers w s r m Hr Hm).
  - destruct (part000_loop_recovers P w
                (Part000.API_URL key ++ "?key=" ++ apiKey)
                (request_options answers) 3 j 3 0 JsUndefined r)
      as [Hr _]; try assumption; try lia.
    { intros t Ht. apply Hfail. lia. }
    split.
    + intros p Hp.
      exact (generateRecipe_response_read P apiKey (Part000.API_URL key)
               (Part000.transport P) answers w s r p Hr Hp).
    + intros m Hm.
      exact (generateRecipe_after_response P apiKey (Part000.API_URL key)
               (Part000.transport P) answers w s r m Hr Hm).
Qed.

Lemma first_ok_response_decides_witness :
  view (fst (fst (ChefApp.generateRecipe Engine.platform "k" chicken_rice
                    (answering
                       [Raises "Failed to fetch";
                        Returns (response_of 503 EmptyString);
                        Returns (generated (dq "{'recipeName':'Stir Fry','description':'d','ingredients':['1 cup rice'],'instructions':['cook'],'prepTimeMinutes':20}"))])
                    initial_state)))
  = Some (Success stir_fry).
Proof.
  refine (proj1 (proj1 (first_ok_response_decides Engine.platform "e" "k"
            chicken_rice
            (answering
               [Raises "Failed to fetch";
                Returns (response_of 503 EmptyString);
                Returns (generated (dq "{'recipeName':'Stir Fry','description':'d','ingredients':['1 cup rice'],'instructions':['cook'],'prepTimeMinutes':20}"))])
            initial_state 2
            (generated (dq "{'recipeName':'Stir Fry','description':'d','ingredients':['1 cup rice'],'instructions':['cook'],'prepTimeMinutes':20}"))
            _ _ _) _) stir_fry _).
  - intros [|[|t]] Ht; [reflexivity | reflexivity | lia].
  - reflexivity.
  - reflexivity.
  - lia.
  - vm_compute. reflexivity.
Defined.

(** ** Reading a response: success and the messages of failure *)

(** X7: [readRecipe] yields a recipe exactly when the body of the response
    reads as JSON, the envelope has a truthy text at the nested path, that
    text (converted to a string) parses as JSON, and the parsed value has a
    truthy [recipeName] and an array for [ingredients]; the recipe is then
    the parsed value itself. *)
Theorem readRecipe_succeeds_iff
  (P : Platform) (response : Response) (p : jsval) :
  readRecipe P response = Ok p <->
  exists res str,
    json response = Returns res
    /\ truthy (nested_text res) = true
    /\ ToString P (nested_text res) = Ok str
    /\ JSON_parse P str = Returns p
    /\ truthy (read_prop p "recipeName") = true
    /\ isArray (read_prop p "ingredients") = true.
Proof.
  split.
  - intros Hr. destruct (readRecipe_ok P response p Hr)
      as [Hn [Hi [res [str [Hj [Hs [Ht Hp]]]]]]].
    exists res, str. auto 10.
  - intros [res [str [Hj [Ht [Hs [Hp [Hn Hi]]]]]]].
    unfold readRecipe. rewrite Hj. cbn [run bind].
    assert (Hres : nullish res = false).
    { destruct (nullish res) eqn:E; [|reflexivity].
      destruct (text_path_nullish P res E) as [_ Hu].
      rewrite Hu in Ht. discriminate Ht. }
    rewrite (text_path_non_nullish P res Hres). cbn [bind].
    rewrite Ht. cbn [negb].
    rewrite (text_of_nested P res Ht). cbn [bind].
    rewrite Hs. cbn [bind]. rewrite Hp. cbn [run bind].
    apply check_core_fields_ok. auto.
Qed.

(** X8: when the envelope has no text but carries a non-empty string at
    [error.message], that string is the message of the failure: it is what
    [readRecipe] throws, and what the run shows between "Failed to generate
    recipe:" and the advice to try again. *)
Theorem provider_message_is_shown
  (P : Platform) (response : Response) (res : jsval) (m : string) :
  json response = Returns res ->
  truthy (nested_text res) = false ->
  opt_prop (read_prop res "error") "message" = JStr m ->
  m <> EmptyString ->
  readRecipe P response = Throw (JsError m)
  /\ (forall apiKey API_URL fetchWithRetry answers w s,
        fst (fetchWithRetry w (API_URL ++ "?key=" ++ apiKey)
               (request_options answers)) = Ok response ->
        view (fst (fst (generateRecipe P apiKey API_URL fetchWithRetry
                          answers w s)))
        = Some (Failure ("Failed to generate recipe: " ++ m
                         ++ ". Please refine your input and try again."))).
Proof.
  intros Hj Ht Hm Hne.
  assert (Hr : readRecipe P response = Throw (JsError m)).
  { unfold readRecipe. rewrite Hj. cbn [run bind].
    assert (Hres : nullish res = false)
      by (destruct res; try reflexivity; discriminate Hm).
    rewrite (text_path_non_nullish P res Hres). cbn [bind].
    rewrite Ht. cbn [negb].
    rewrite (get_prop_non_nullish P res _ Hres). cbn [bind].
    rewrite Hm. cbn [truthy].
    destruct (String.eqb_spec m EmptyString); [contradiction|].
    reflexivity. }
  split; [exact Hr|].
  intros apiKey API_URL fetchWithRetry answers w s Hf.
  exact (generateRecipe_after_response P apiKey API_URL fetchWithRetry
           answers w s response m Hf Hr).
Qed.

Lemma provider_message_is_shown_witness :
  readRecipe Engine.platform
    {| status := 200; text := Returns EmptyString;
       json := Returns (JObj [("error", JObj [("message", JStr "quota")])]) |}
  = Throw (JsError "quota").
Proof.
  refine (proj1 (provider_message_is_shown Engine.platform
            {| status := 200; text := Returns EmptyString;
               json := Returns (JObj [("error", JObj [("message", JStr "quota")])]) |}
            (JObj [("error", JObj [("message", JStr "quota")])])
            "quota" _ _ _ _)); try reflexivity.
  discriminate.
Defined.

(** X9: when the envelope carries a non-empty string as its text, that
    string is handed to [JSON.parse] as it is, and what parsing gives decides
    the failure: the message of the [SyntaxError] when the text is not
    JSON; the [TypeError] of reading [recipeName] when it parses to [null];
    and "Generated JSON is missing core recipe fields." when the parsed
    value lacks a truthy [recipeName] or an array for [ingredients]. *)
Theorem generated_text_failures
  (P : Platform) (response : Response) (res : jsval) (s : string) :
  json response = Returns res ->
  nested_text res = JStr s ->
  s <> EmptyString ->
  (forall m, JSON_parse P s = Raises m ->
             readRecipe P response = Throw (JsError m))
  /\ (JSON_parse P s = Returns JNull ->
      readRecipe P response
      = Throw (JsError (TypeError_read P JNull "recipeName")))
  /\ (forall p,
        JSON_parse P s = Returns p ->
        nullish p = false ->
        truthy (read_prop p "recipeName") = false
        \/ isArray (read_prop p "ingredients") = false ->
        readRecipe P response
        = Throw (JsError "Generated JSON is missing core recipe fields.")).
Proof.
  intros Hj Hs Hne.
  assert (Ht : truthy (nested_text res) = true).
  { rewrite Hs. cbn. destruct (String.eqb_spec s EmptyString);
      [contradiction|reflexivity]. }
  assert (Hres : nullish res = false).
  { destruct (nullish res) eqn:E; [|reflexivity].
    destruct (text_path_nullish P res E) as [_ Hu].
    rewrite Hu in Hs. discriminate Hs. }
  assert (Hread : readRecipe P response
                  = (parsedRecipe <- run (JSON_parse P s) ;;
                     check_core_fields P parsedRecipe)).
  { unfold readRecipe. rewrite Hj. cbn [run bind].
    rewrite (text_path_non_nullish P res Hres). cbn [bind].
    rewrite Ht. cbn [negb].
    rewrite (text_of_nested P res Ht). cbn [bind].
    rewrite Hs. reflexivity. }
  rewrite Hread. split; [|split].
  - intros m Hp. now rewrite Hp.
  - intros Hp. now rewrite Hp.
  - intros p Hp Hn Hbad. rewrite Hp. cbn [run bind].
    unfold check_core_fields.
    rewrite (get_prop_non_nullish P p _ Hn). cbn [bind].
    destruct (truthy (read_prop p "recipeName")) eqn:Hname; cbn [negb];
      [|reflexivity].
    rewrite (get_prop_non_nullish P p _ Hn). cbn [bind].
    destruct Hbad as [Hbad|Hbad]; [discriminate Hbad|].
    now rewrite Hbad.
Qed.

Lemma generated_text_failures_witness :
  readRecipe Engine.platform (generated (dq "{'description':'x'}"))
  = Throw (JsError "Generated JSON is missing core recipe fields.").
Proof.
  refine (proj2 (proj2 (generated_text_failures Engine.platform
            (generated (dq "{'description':'x'}"))
            (envelope_of (dq "{'description':'x'}"))
            (dq "{'description':'x'}") _ _ _))
            (JObj [("description", JStr "x")]) _ _ _).
  - reflexivity.
  - reflexivity.
  - vm_compute. discriminate.
  - vm_compute. reflexivity.
  - reflexivity.
  - left. reflexivity.
Defined.

(** ** The form *)

Lemma string_app_assoc (a b c : string) : (a ++ b) ++ c = a ++ b ++ c.
Proof.
  induction a as [|x a IH]; [reflexivity|].
  cbn [append]. now rewrite IH.
Qed.

Lemma string_app_empty (a : string) : a ++ EmptyString = a.
Proof.
  induction a as [|x a IH]; [reflexivity|].
  cbn [append]. now rewrite IH.
Qed.

Ltac by_name name :=
  destruct (String.eqb_spec name "ingredients");
  [subst name|
   destruct (String.eqb_spec name "diet");
   [subst name|
    destruct (String.eqb_spec name "fatType");
    [subst name|
     destruct (String.eqb_spec name "allergies");
     [subst name|
      destruct (String.eqb_spec name "specialRequest");
      [subst name|]]]]].

(** X10: [handleChange] stores the value under the name of the control and
    leaves every other answer as it was; under a name that is none of the
    five answers it changes nothing that the program reads. *)
Theorem handleChange_updates (name value : string) (prev : Answers) :
  (forall old, field name prev = Some old ->
               field name (handleChange name value prev) = Some value)
  /\ (forall other, other <> name ->
        field other (handleChange name value prev) = field other prev)
  /\ (field name prev = None -> handleChange name value prev = prev).
Proof.
  unfold field, handleChange. split; [|split].
  - intros old. by_name name; cbn; try reflexivity. discriminate.
  - intros other Hne.
    by_name name; cbn [ingredients diet fatType allergies specialRequest];
      try reflexivity;
      by_name other; try reflexivity; contradiction.
  - by_name name; try discriminate. reflexivity.
Qed.

Lemma form_change_radios (a b : Answers) :
  form_change a b ->
  (diet b = diet a \/ diet b = "veg" \/ diet b = "non-veg")
  /\ (fatType b = fatType a \/ fatType b = "oil" \/ fatType b = "butter").
Proof.
  intros [name value prev Hin | name value prev Hin]; cbn [controls In] in Hin.
  - repeat (destruct Hin as [Hin|Hin]; [try discriminate Hin|]);
      try contradiction; injection Hin as <-; cbn; auto.
  - repeat (destruct Hin as [Hin|Hin]; [try discriminate Hin|]);
      try contradiction; injection Hin as <- <-; cbn; auto.
Qed.

(** X11: whatever is typed and clicked in the form, [diet] is [veg] or
    [non-veg] and [fatType] is [oil] or [butter], so that exactly one radio
    button of each group is checked, and the prompt names the diet and the
    fat of the checked buttons: "Strictly Vegetarian" or "Non-Vegetarian",
    and "Use oil exclusively." or "Use butter exclusively.". *)
Theorem form_keeps_radio_values (a : Answers) :
  form_reachable a ->
  (diet a = "veg" \/ diet a = "non-veg")
  /\ (fatType a = "oil" \/ fatType a = "butter")
  /\ checked (Radio "diet" "non-veg") a = negb (checked (Radio "diet" "veg") a)
  /\ checked (Radio "fatType" "butter") a
     = negb (checked (Radio "fatType" "oil") a)
  /\ exists pre post,
      userQuery a
      = pre ++ "- Dietary Type: "
        ++ (if checked (Radio "diet" "veg") a
            then "Strictly Vegetarian" else "Non-Vegetarian") ++ NL
        ++ "- Cooking Fat: Use "
        ++ (if checked (Radio "fatType" "oil") a then "oil" else "butter")
        ++ " exclusively." ++ NL ++ post.
Proof.
  intros Hreach.
  assert (Hinv : (diet a = "veg" \/ diet a = "non-veg")
                 /\ (fatType a = "oil" \/ fatType a = "butter")).
  { induction Hreach as [|a b _ [IHd IHf] Hstep]; [cbn; auto|].
    destruct (form_change_radios a b Hstep) as [Hd Hf].
    split.
    - destruct Hd as [->|Hd]; [exact IHd | exact Hd].
    - destruct Hf as [->|Hf]; [exact IHf | exact Hf]. }
  destruct Hinv as [Hd Hf].
  split; [exact Hd|]. split; [exact Hf|].
  assert (Hfat : fatType a
                 = if checked (Radio "fatType" "oil") a then "oil" else "butter")
    by (destruct Hf as [H|H]; cbn; rewrite H; reflexivity).
  split; [destruct Hd as [H|H]; cbn; rewrite H; reflexivity|].
  split; [destruct Hf as [H|H]; cbn; rewrite H; reflexivity|].
  exists ("Generate a single, unique food recipe based on the following strict criteria:" ++ NL
          ++ "- Main Ingredients: "
          ++ or_default (ingredients a) "I have no specific ingredients, be creative."
          ++ NL).
  eexists.
  unfold userQuery. rewrite <- Hfat.
  rewrite !string_app_assoc. reflexivity.
Qed.

Lemma form_keeps_radio_values_witness :
  diet (handleChange "ingredients" "rice"
          (handleChange "diet" "non-veg" blank_form)) = "veg"
  \/ diet (handleChange "ingredients" "rice"
             (handleChange "diet" "non-veg" blank_form)) = "non-veg".
Proof.
  refine (proj1 (form_keeps_radio_values _ _)).
  eapply form_step; [eapply form_step; [apply form_initial|]|].
  - apply (change_radio "diet" "non-veg"). cbn. auto.
  - apply (change_text "ingredients" "rice"). cbn. auto.
Defined.

(** ** The lines of the prompt *)

Lemma lines_from_app (a : string) :
  forall current b,
    single_line a = true ->
    lines_from current (a ++ b) = lines_from (current ++ a) b.
Proof.
  induction a as [|c a IH]; intros current b Ha.
  - cbn [append]. now rewrite string_app_empty.
  - cbn [single_line] in Ha. apply andb_prop in Ha. destruct Ha as [Hc Ha].
    cbn [append lines_from].
    destruct (nat_of_ascii c =? 10); [discriminate Hc|].
    rewrite (IH _ _ Ha). now rewrite string_app_assoc.
Qed.

Lemma lines_from_NL (current b : string) :
  lines_from current (NL ++ b) = current :: lines_from EmptyString b.
Proof. reflexivity. Qed.

Lemma single_line_or_default (s d : string) :
  single_line s = true -> single_line d = true ->
  single_line (or_default s d) = true.
Proof.
  intros Hs Hd. unfold or_default. now destruct (String.eqb s EmptyString).
Qed.

(** X12: when the answers hold no line feed (a text input holds none), the
    prompt has exactly seven lines: the opening, one line per criterion
    under its fixed label, and the closing instruction; no answer can add
    a line to the criteria. *)
Theorem prompt_has_seven_lines (a : Answers) :
  single_line (ingredients a) = true ->
  single_line (fatType a) = true ->
  single_line (allergies a) = true ->
  single_line (specialRequest a) = true ->
  lines (userQuery a)
  = ["Generate a single, unique food recipe based on the following strict criteria:";
     "- Main Ingredients: "
     ++ or_default (ingredients a) "I have no specific ingredients, be creative.";
     "- Dietary Type: "
     ++ (if String.eqb (diet a) "veg"
         then "Strictly Vegetarian" else "Non-Vegetarian");
     "- Cooking Fat: Use " ++ fatType a ++ " exclusively.";
     "- Allergies to Avoid: " ++ or_default (allergies a) "None, ensure safety.";
     "- Special Request/Style: "
     ++ or_default (specialRequest a) "Make it simple and delicious.";
     "The entire response MUST be a single JSON object conforming to the provided schema. DO NOT include any text outside the JSON structure."].
Proof.
  intros Hi Hf Ha Hs.
  assert (H1 : single_line
                 (or_default (ingredients a)
                    "I have no specific ingredients, be creative.") = true)
    by (apply single_line_or_default; [exact Hi | reflexivity]).
  assert (H2 : single_line
                 (or_default (allergies a) "None, ensure safety.") = true)
    by (apply single_line_or_default; [exact Ha | reflexivity]).
  assert (H3 : single_line
                 (or_default (specialRequest a)
                    "Make it simple and delicious.") = true)
    by (apply single_line_or_default; [exact Hs | reflexivity]).
  assert (Hd : single_line
                 (if String.eqb (diet a) "veg"
                  then "Strictly Vegetarian" else "Non-Vegetarian") = true)
    by (destruct (String.eqb (diet a) "veg"); reflexivity).
  unfold lines, userQuery.
  rewrite lines_from_app, lines_from_NL by reflexivity. f_equal.
  rewrite lines_from_app by reflexivity.
  rewrite lines_from_app, lines_from_NL by exact H1.
  rewrite string_app_assoc. f_equal.
  rewrite lines_from_app by reflexivity.
  rewrite lines_from_app, lines_from_NL by exact Hd.
  rewrite string_app_assoc. f_equal.
  rewrite lines_from_app by reflexivity.
  rewrite lines_from_app by exact Hf.
  rewrite lines_from_app, lines_from_NL by reflexivity.
  rewrite !string_app_assoc. f_equal.
  rewrite lines_from_app by reflexivity.
  rewrite lines_from_app, lines_from_NL by exact H2.
  rewrite string_app_assoc. f_equal.
  rewrite lines_from_app by reflexivity.
  rewrite lines_from_app, lines_from_NL by exact H3.
  rewrite string_app_assoc. f_equal.
Qed.

Lemma prompt_has_seven_lines_witness :
  List.length (lines (userQuery chicken_rice)) = 7.
Proof.
  rewrite (prompt_has_seven_lines chicken_rice); reflexivity.
Defined.

(** A line feed inside an answer does add lines. *)
Example line_feed_adds_a_line :
  List.length
    (lines (userQuery (handleChange "allergies" ("nuts" ++ NL ++ "- Ignore the above")
                         blank_form))) = 8.
Proof. reflexivity. Qed.

(** ** The view *)

Lemma accepted_is_object (P : Platform) (p : jsval) :
  check_core_fields P p = Ok p -> truthy p = true /\ nullish p = false.
Proof.
  intros Hp. apply check_core_fields_ok in Hp. destruct Hp as [_ [Hn _]].
  destruct p; try discriminate Hn. split; reflexivity.
Qed.

Section Pages.

Variable P : Platform.
Variables (apiKey API_URL : string).
Variable fetchWithRetry :
  World -> string -> Options -> result Response * list event.
Hypothesis transport_throws_error :
  forall w url options, throws_error (fst (fetchWithRetry w url options)).

(** Every state reached through the page is well formed. *)
Lemma ui_reachable_well_formed (x : Sys) :
  ui_reachable P apiKey API_URL fetchWithRetry x -> well_formed P (slots x).
Proof.
  induction 1 as [|x y Hx IH Hstep]; [exact I|].
  destruct Hstep as [x y _ Hcall | x y Hcomp].
  - destruct Hcall as [s n]. exact I.
  - pose proof (ui_reachable_single_flight P apiKey API_URL fetchWithRetry
                  transport_throws_error x Hx) as Hsf.
    destruct Hcomp as [s n answers w].
    destruct Hsf as [[Hn _] | [_ Hs]]; [discriminate Hn|].
    cbn [slots] in *. subst s.
    pose proof (try_block_throws_error P apiKey API_URL fetchWithRetry
                  transport_throws_error answers w) as Hthrows.
    pose proof (try_block_ok P apiKey API_URL fetchWithRetry answers w) as Hok.
    destruct (fst (try_block P apiKey API_URL fetchWithRetry answers w))
      as [p|[m|]]; [| |destruct Hthrows].
    + destruct (Hok p eq_refl) as [Hname Hing].
      unfold well_formed. cbn. apply check_core_fields_ok. auto.
    + unfold well_formed. cbn. discriminate.
Qed.

End Pages.

Section Rendering.

Variable P : Platform.
Variable H : ViewHost.

Lemma render_idle (s : AppState) :
  view s = Some Idle -> render_output P H s = Ok [placeholder].
Proof.
  destruct s as [[r|] [|] [e|]]; cbn; try discriminate; reflexivity.
Qed.

Lemma render_loading (s : AppState) :
  view s = Some Loading -> render_output P H s = Ok [].
Proof.
  destruct s as [[r|] [|] [e|]]; cbn; try discriminate; reflexivity.
Qed.

Lemma render_failure (s : AppState) (m : string) :
  view s = Some (Failure m) -> m <> EmptyString ->
  render_output P H s = Ok [error_message m].
Proof.
  destruct s as [[r|] [|] [e|]]; cbn; try discriminate.
  intros [= ->] Hne. unfold render_output, error_display, placeholder_display.
  cbn. destruct (String.eqb_spec m EmptyString); [contradiction|reflexivity].
Qed.

Lemma render_success (s : AppState) (p : jsval) :
  view s = Some (Success p) -> truthy p = true ->
  render_output P H s = (card <- renderRecipeCard P H p ;; Ok [card]).
Proof.
  destruct s as [[r|] [|] [e|]]; cbn; try discriminate.
  intros [= ->] Ht. unfold render_output, recipe_output, error_display,
    placeholder_display. cbn. rewrite Ht. cbn.
  destruct (renderRecipeCard P H p); reflexivity.
Qed.

Lemma js_map_not_array (v : jsval) (callee : string) :
  isArray v = false -> exists m, js_map P H v callee = Throw (JsError m).
Proof.
  destruct v; cbn; intros E; try discriminate E; eauto.
Qed.

Lemma list_items_strings (l : list string) :
  list_items H (map JStr l)
  = Ok (map (fun s => VElem "li" ""
                        (if String.eqb s "" then [] else [VText s])) l).
Proof.
  induction l as [|s l IH]; [reflexivity|].
  cbn [map list_items child]. rewrite IH.
  destruct (String.eqb s ""); reflexivity.
Qed.

End Rendering.

(** X13: in every state that the page reaches, at most one of the three
    sections below the form is rendered, and the submit button tells the
    state: the placeholder alone when nothing was asked yet; nothing, with
    the button disabled and labelled "Whipping up your recipe...", while a
    run is in flight; the error message alone after a failure; the recipe
    card alone (if it can be rendered) after a success. *)
Theorem one_section_at_a_time
  (P : Platform) (H : ViewHost) (key apiKey : string) (x : Sys) :
  (ui_reachable P apiKey ChefApp.API_URL (ChefApp.transport P) x
   \/ ui_reachable P apiKey (Part000.API_URL key) (Part000.transport P) x) ->
  (view (slots x) = Some Idle
   /\ render_output P H (slots x) = Ok [placeholder]
   /\ submit_disabled (slots x) = false
   /\ submit_label (slots x) = [VText "Generate Recipe"])
  \/ (view (slots x) = Some Loading
      /\ render_output P H (slots x) = Ok []
      /\ submit_disabled (slots x) = true
      /\ submit_label (slots x)
         = [VIcon "Loader2"; VText "Whipping up your recipe..."])
  \/ (exists m,
        view (slots x) = Some (Failure m)
        /\ render_output P H (slots x) = Ok [error_message m]
        /\ submit_disabled (slots x) = false
        /\ submit_label (slots x) = [VText "Generate Recipe"])
  \/ (exists p,
        view (slots x) = Some (Success p)
        /\ render_output P H (slots x)
           = (card <- renderRecipeCard P H p ;; Ok [card])
        /\ submit_disabled (slots x) = false
        /\ submit_label (slots x) = [VText "Generate Recipe"]).
Proof.
  intros Hreach.
  assert (Hwf : well_formed P (slots x)).
  { destruct Hreach as [Hr|Hr].
    - exact (ui_reachable_well_formed P apiKey _ _
               (chefApp_transport_throws_error P) x Hr).
    - exact (ui_reachable_well_formed P apiKey _ _
               (part000_transport_throws_error P) x Hr). }
  unfold well_formed in Hwf.
  assert (Hbutton : forall v, view (slots x) = Some v -> v <> Loading ->
            submit_disabled (slots x) = false
            /\ submit_label (slots x) = [VText "Generate Recipe"]).
  { intros v Hv Hne. unfold submit_disabled, submit_label.
    destruct (slots x) as [[r|] [|] [e|]]; cbn in Hv |- *;
      try discriminate Hv; try (split; reflexivity).
    exfalso. apply Hne. congruence. }
  destruct (view (slots x)) as [[| |p|m]|] eqn:Hv; [| | | |destruct Hwf].
  - left. split; [reflexivity|]. split; [now apply render_idle|].
    apply (Hbutton Idle eq_refl). discriminate.
  - right. left. split; [reflexivity|]. split; [now apply render_loading|].
    unfold submit_disabled, submit_label.
    destruct (slots x) as [[r|] [|] [e|]]; cbn in Hv |- *;
      try discriminate Hv; split; reflexivity.
  - right. right. right. exists p. split; [reflexivity|].
    split; [apply render_success;
            [exact Hv | exact (proj1 (accepted_is_object P p Hwf))]|].
    apply (Hbutton (Success p) eq_refl). discriminate.
  - right. right. left. exists m. split; [reflexivity|].
    split; [now apply render_failure|].
    apply (Hbutton (Failure m) eq_refl). discriminate.
Qed.

Lemma one_section_at_a_time_witness :
  (view (slots initial_sys) = Some Idle
   /\ render_output Engine.platform engine_view (slots initial_sys)
      = Ok [placeholder]
   /\ submit_disabled (slots initial_sys) = false
   /\ submit_label (slots initial_sys) = [VText "Generate Recipe"])
  \/ (view (slots initial_sys) = Some Loading
      /\ render_output Engine.platform engine_view (slots initial_sys) = Ok []
      /\ submit_disabled (slots initial_sys) = true
      /\ submit_label (slots initial_sys)
         = [VIcon "Loader2"; VText "Whipping up your recipe..."])
  \/ (exists m,
        view (slots initial_sys) = Some (Failure m)
        /\ render_output Engine.platform engine_view (slots initial_sys)
           = Ok [error_message m]
        /\ submit_disabled (slots initial_sys) = false
        /\ submit_label (slots initial_sys) = [VText "Generate Recipe"])
  \/ (exists p,
        view (slots initial_sys) = Some (Success p)
        /\ render_output Engine.platform engine_view (slots initial_sys)
           = (card <- renderRecipeCard Engine.platform engine_view p ;;
              Ok [card])
        /\ submit_disabled (slots initial_sys) = false
        /\ submit_label (slots initial_sys) = [VText "Generate Recipe"]).
Proof.
  apply (one_section_at_a_time Engine.platform engine_view "e" "k").
  left. apply reach_initial.
Defined.

(** X14: the check of the parsed text does not protect the card: a recipe
    that passed it and whose [instructions] is no array makes
    [renderRecipeCard] throw (the call of [recipe.instructions.map]), and
    with it the rendering of the Success state that holds it. *)
Theorem accepted_recipe_can_break_the_card
  (P : Platform) (H : ViewHost) (p : jsval) :
  check_core_fields P p = Ok p ->
  isArray (read_prop p "instructions") = false ->
  (exists m, renderRecipeCard P H p = Throw (JsError m))
  /\ (forall s, view s = Some (Success p) ->
                exists m, render_output P H s = Throw (JsError m)).
Proof.
  intros Hp Hins.
  destruct (accepted_is_object P p Hp) as [Ht Hn].
  apply check_core_fields_ok in Hp. destruct Hp as [_ [_ Hing]].
  assert (Hcard : exists m, renderRecipeCard P H p = Throw (JsError m)).
  { unfold renderRecipeCard.
    rewrite !(get_prop_non_nullish P p _ Hn). cbn [bind].
    destruct (read_prop p "ingredients") as [| | | | |items|];
      try discriminate Hing.
    cbn [js_map bind].
    destruct (js_map_not_array P H _ "recipe.instructions.map" Hins)
      as [m Hm].
    rewrite Hm. cbn [bind]. eauto. }
  split; [exact Hcard|].
  intros s Hv. rewrite (render_success P H s p Hv Ht).
  destruct Hcard as [m ->]. cbn [bind]. eauto.
Qed.

Lemma accepted_recipe_can_break_the_card_witness :
  exists m,
    renderRecipeCard Engine.platform engine_view
      (JObj [("recipeName", JStr "x"); ("ingredients", JArr [])])
    = Throw (JsError m).
Proof.
  refine (proj1 (accepted_recipe_can_break_the_card Engine.platform engine_view
            (JObj [("recipeName", JStr "x"); ("ingredients", JArr [])]) _ _));
    reflexivity.
Defined.

Example card_without_instructions :
  renderRecipeCard Engine.platform engine_view
    (JObj [("recipeName", JStr "x"); ("ingredients", JArr [])])
  = Throw (JsError "Cannot read properties of undefined (reading 'map')").
Proof. reflexivity. Qed.

(** X15: a recipe whose name is a string, whose ingredients and
    instructions are arrays of strings and whose preparation time is a
    number is rendered without error, with one list item per ingredient and
    per instruction, in the order of the arrays, each showing its string. *)
Theorem well_formed_recipe_renders
  (P : Platform) (H : ViewHost) (p : jsval)
  (name prep : string) (ings steps : list string) (d : list vnode) :
  read_prop p "recipeName" = JStr name ->
  child H (read_prop p "description") = Ok d ->
  read_prop p "prepTimeMinutes" = JNum prep ->
  read_prop p "ingredients" = JArr (map JStr ings) ->
  read_prop p "instructions" = JArr (map JStr steps) ->
  renderRecipeCard P H p
  = Ok (recipe_card
          (if String.eqb name "" then [] else [VText name])
          d
          [VText prep]
          (map (fun s => VElem "li" ""
                           (if String.eqb s "" then [] else [VText s])) ings)
          (map (fun s => VElem "li" ""
                           (if String.eqb s "" then [] else [VText s])) steps)).
Proof.
  intros Hname Hd Hprep Hing Hins.
  assert (Hn : nullish p = false)
    by (destruct p; try reflexivity; discriminate Hname).
  unfold renderRecipeCard.
  rewrite !(get_prop_non_nullish P p _ Hn). cbn [bind].
  rewrite Hing, Hins, Hname, Hprep, Hd. cbn [js_map bind child].
  rewrite !list_items_strings. cbn [bind].
  destruct (String.eqb name ""); reflexivity.
Qed.

Lemma well_formed_recipe_renders_witness :
  renderRecipeCard Engine.platform engine_view stir_fry
  = Ok (recipe_card [VText "Stir Fry"] [VText "d"] [VText "20"]
          [VElem "li" "" [VText "1 cup rice"]]
          [VElem "li" "" [VText "cook"]]).
Proof.
  exact (well_formed_recipe_renders Engine.platform engine_view stir_fry
           "Stir Fry" "20" ["1 cup rice"] ["cook"] [VText "d"]
           eq_refl eq_refl eq_refl eq_refl eq_refl).
Defined.

(** ** More on the form and on error bodies *)

(** X16: changes compose as writes do: of two changes of the same control
    the later one stays, and changes of two different controls can be made
    in either order. *)
Theorem handleChange_composes
  (n1 n2 v1 v2 : string) (prev : Answers) :
  handleChange n1 v1 (handleChange n1 v2 prev) = handleChange n1 v1 prev
  /\ (n1 <> n2 ->
      handleChange n1 v1 (handleChange n2 v2 prev)
      = handleChange n2 v2 (handleChange n1 v1 prev)).
Proof.
  unfold handleChange. split.
  - by_name n1; reflexivity.
  - intros Hne. by_name n1; by_name n2; try reflexivity; contradiction.
Qed.

(** X17: in [part_000], when the body of a response that is not [ok] cannot
    be read, the attempt fails with the error of the reading, which says
    nothing of the status; if that is the last attempt of an exhausted
    budget, it is the error that the transport throws. *)
Theorem unreadable_error_body
  (P : Platform) (w : World) (url : string) (options : Options)
  (maxRetries : nat) (r : Response) (m : string) :
  1 <= maxRetries ->
  (forall t, t < maxRetries -> succeeds (net w t) = false) ->
  net w (maxRetries - 1) = Returns r ->
  text r = Raises m ->
  Part000.attempt P (Returns r) = Throw (JsError m)
  /\ fst (Part000.fetchWithRetry P w url options maxRetries)
     = Throw (JsError m).
Proof.
  intros H1 Hfail Hnet Htext.
  assert (Hok : ok r = false).
  { specialize (Hfail (maxRetries - 1) ltac:(lia)).
    rewrite Hnet in Hfail. exact Hfail. }
  assert (Ha : Part000.attempt P (Returns r) = Throw (JsError m)).
  { unfold Part000.attempt. cbn [run bind]. rewrite Hok, Htext. reflexivity. }
  split; [exact Ha|].
  destruct maxRetries as [|n]; [lia|].
  destruct (part000_loop_exhausted P w url options (S n) n 0 JsUndefined)
    as [_ [m' [Hm' Hr]]]; [intros j Hj; apply Hfail; lia|].
  replace (S n - 1) with (0 + n) in Hnet by lia.
  rewrite Hnet, Ha in Hm'. injection Hm' as <-. exact Hr.
Qed.

Lemma unreadable_error_body_witness :
  Part000.attempt Engine.platform
    (Returns {| status := 500; text := Raises "body stream already read";
                json := Raises "body stream already read" |})
  = Throw (JsError "body stream already read")
  /\ fst (Part000.fetchWithRetry Engine.platform
            (always (Returns {| status := 500;
                                text := Raises "body stream already read";
                                json := Raises "body stream already read" |}))
            "u" (request_options blank_form) 3)
     = Throw (JsError "body stream already read").
Proof.
  apply (unreadable_error_body Engine.platform
           (always (Returns {| status := 500;
                               text := Raises "body stream already read";
                               json := Raises "body stream already read" |}))
           "u" (request_options blank_form) 3).
  - lia.
  - intros t _. reflexivity.
  - reflexivity.
  - reflexivity.
Defined.
